(** * CameraBot: the scheduling loop of [main.py], embedded and verified

    The bot keeps its settings in a Python dict, reads the wall clock once a
    tick, walks the joined guilds looking for the configured channel, and
    decides from the time of day whether to take a photo and post it.

    The embedding follows [main.py] function by function.  The dict is a
    [gmap string value]; the code that talks to the outside (the clock, the
    camera command, the chat transport, the files on disk) runs in a small
    state-and-exception monad over a [World] that records what the outside
    answers and what the bot did. *)

From Stdlib Require Import ZArith String Ascii List Lia Bool.
From stdpp Require Import gmap strings list fin_maps pretty.

Local Open Scope string_scope.
Local Open Scope Z_scope.

(** ** Times of day and timestamps ([datetime.time], [datetime.datetime]) *)

Record time := mk_time {
  hour : Z;
  minute : Z;
  second : Z;
  microsecond : Z
}.

Record datetime := mk_datetime {
  year : Z;
  month : Z;
  day : Z;
  time_of : time   (* [now.time()] *)
}.

(** Python compares naive [time] values as the tuples
    [(hour, minute, second, microsecond)]. *)
Definition time_compare (a b : time) : comparison :=
  match hour a ?= hour b with
  | Eq =>
    match minute a ?= minute b with
    | Eq =>
      match second a ?= second b with
      | Eq => microsecond a ?= microsecond b
      | c => c
      end
    | c => c
    end
  | c => c
  end.

(** [a <= b] on [time]. *)
Definition time_le (a b : time) : bool :=
  match time_compare a b with
  | Gt => false
  | _ => true
  end.

(** [a < b] on [time]. *)
Definition time_lt (a b : time) : bool :=
  match time_compare a b with
  | Lt => true
  | _ => false
  end.

(** The chained comparison [start <= t <= end]. *)
Definition between (start t end_ : time) : bool :=
  time_le start t && time_le t end_.

(** ** [datetime.strptime(s, "%H:%M")]

    The standard library turns the format into the regular expression
    [(2[0-3]|[0-1]\d|\d):([0-5]\d|\d)], matches it at the start of the
    string and then refuses input that is left over.  Alternatives are tried
    in the order written.  Strings here are ASCII, so [\d] is [0-9]. *)

Definition is_digit (c : ascii) : bool :=
  (48 <=? nat_of_ascii c)%nat && (nat_of_ascii c <=? 57)%nat.

Definition digit_value (c : ascii) : Z := Z.of_nat (nat_of_ascii c) - 48.

Definition digit_upto (top : Z) (c : ascii) : bool :=
  is_digit c && (digit_value c <=? top).

(** [([0-5]\d|\d)]: the minute and what follows it. *)
Definition match_minute (s : string) : option (Z * string) :=
  match s with
  | String c (String d rest) =>
    if digit_upto 5 c && is_digit d
    then Some (10 * digit_value c + digit_value d, rest)
    else if is_digit c then Some (digit_value c, String d rest) else None
  | String c EmptyString =>
    if is_digit c then Some (digit_value c, EmptyString) else None
  | EmptyString => None
  end.

(** [:([0-5]\d|\d)] *)
Definition match_colon_minute (s : string) : option (Z * string) :=
  match s with
  | String ":" rest => match_minute rest
  | _ => None
  end.

(** The three alternatives of the hour, each paired with the text after it. *)
Definition hour_alternatives (s : string) : list (Z * string) :=
  match s with
  | String c (String d rest) =>
    (if Ascii.eqb c "2" && digit_upto 3 d
     then [(20 + digit_value d, rest)] else []) ++
    (if digit_upto 1 c && is_digit d
     then [(10 * digit_value c + digit_value d, rest)] else []) ++
    (if is_digit c then [(digit_value c, String d rest)] else [])
  | String c EmptyString =>
    if is_digit c then [(digit_value c, EmptyString)] else []
  | EmptyString => []
  end.

(** The first alternative of the hour after which the rest of the
    expression matches. *)
Fixpoint first_match (alts : list (Z * string)) : option (Z * Z * string) :=
  match alts with
  | [] => None
  | (h, rest) :: alts' =>
    match match_colon_minute rest with
    | Some (m, rest') => Some (h, m, rest')
    | None => first_match alts'
    end
  end.

(** [datetime.strptime(s, "%H:%M").time()]; [None] stands for the
    [ValueError] of a string that does not match or has text left over. *)
Definition strptime_HM (s : string) : option time :=
  match first_match (hour_alternatives s) with
  | Some (h, m, EmptyString) => Some (mk_time h m 0 0)
  | _ => None
  end.

(** ** [strftime("%Y-%m-%d_%H-%M-%S")] *)

Fixpoint zeros (n : nat) : string :=
  match n with
  | O => ""
  | S k => String "0" (zeros k)
  end.

(** A number printed in at least [width] digits. *)
Definition padded (width : nat) (n : Z) : string :=
  let s := pretty (Z.to_N n) in
  zeros (width - String.length s) +:+ s.

Definition strftime (d : datetime) : string :=
  padded 4 (year d) +:+ "-" +:+ padded 2 (month d) +:+ "-" +:+
  padded 2 (day d) +:+ "_" +:+ padded 2 (hour (time_of d)) +:+ "-" +:+
  padded 2 (minute (time_of d)) +:+ "-" +:+ padded 2 (second (time_of d)).

(** ** Settings

    [self.settings] is a dict from the setting's name to a JSON value.  A
    special window is the dict [{"start": .., "end": .., "interval": ..}]
    that [add_window] builds. *)

Record window := mk_window {
  start : string;
  end_ : string;
  interval : Z
}.

Inductive value :=
| VNone                        (* None / null *)
| VBool (b : bool)
| VInt (n : Z)
| VStr (s : string)
| VList (ws : list window).

Global Instance window_eq_dec : EqDecision window.
Proof. solve_decision. Defined.

Global Instance value_eq_dec : EqDecision value.
Proof. solve_decision. Defined.

(** Python's truth value of a setting ([if not channel_name]). *)
Definition truthy (v : value) : bool :=
  match v with
  | VNone => false
  | VBool b => b
  | VInt n => negb (n =? 0)
  | VStr s => negb (String.eqb s "")
  | VList ws => match ws with [] => false | _ => true end
  end.

(** [d.get(key)] and [d.get(key, default)]. *)
Definition dict_get (d : gmap string value) (key : string) : value :=
  default VNone (d !! key).

Definition dict_get_default (d : gmap string value) (key : string) (dflt : value) : value :=
  default dflt (d !! key).

(** The dict [load_settings] falls back to. *)
Definition default_settings : gmap string value :=
  <["channel_name" := VNone]>
  (<["interval_minutes" := VInt 5]>
  (<["delete_after_upload" := VBool false]>
  (<["special_windows" := VList []]> ∅))).

(** ** The chat side: guilds and their text channels *)

Record channel := mk_channel {
  channel_id : Z;
  name : string
}.

Record guild := mk_guild {
  text_channels : list channel
}.

Global Instance channel_eq_dec : EqDecision channel.
Proof. solve_decision. Defined.

(** [discord.utils.get(channels, name=v)]: the first channel whose name
    equals [v]; a setting that is not a string equals no name. *)
Definition utils_get (channels : list channel) (v : value) : option channel :=
  List.find (fun c => match v with
                      | VStr s => String.eqb (name c) s
                      | _ => false
                      end) channels.

(** ** The world the bot runs in *)

Inductive exn :=
| ValueError
| ZeroDivisionError
| TypeError
| AttributeError
| RuntimeError (msg : string)
| FileNotFoundError
| HTTPException      (* discord: the request was refused *)
| ClientError.       (* aiohttp: the connection failed *)

Global Instance exn_eq_dec : EqDecision exn.
Proof. solve_decision. Defined.

(** What the bot did to the outside, oldest first. *)
Inductive event :=
| Captured (filename : string) (exit_code : Z)
| Sent (ch : channel) (filename : string)
| SendFailed (ch : channel) (filename : string) (e : exn)
| Removed (filename : string).

(** What [channel.send] meets: the file is delivered, discord refuses the
    request, or the connection fails. *)
Inductive send_answer :=
| Delivered
| Refused
| Disconnected.

Definition send_error (a : send_answer) : option exn :=
  match a with
  | Delivered => None
  | Refused => Some HTTPException
  | Disconnected => Some ClientError
  end.

(** [camera_settings.json]: not there, not JSON, or a JSON object. *)
Inductive file_state :=
| Missing
| Undecodable
| Json (d : gmap string value).

(** [clock], [camera] and [transport] are the answers of the outside to the
    bot's successive questions; [asked] counts the questions so far. *)
Record World := mk_World {
  settings : gmap string value;        (* self.settings *)
  settings_file : file_state;          (* SETTINGS_FILE on disk *)
  guilds : list guild;                 (* self.guilds *)
  disk : gset string;                  (* photo files on disk *)
  clock : nat -> datetime;             (* datetime.now() *)
  camera : nat -> Z;                   (* exit code of libcamera-still *)
  transport : nat -> send_answer;      (* channel.send *)
  asked : nat;
  events : list event
}.

Definition with_settings (s : gmap string value) (w : World) : World :=
  mk_World s (settings_file w) (guilds w) (disk w)
           (clock w) (camera w) (transport w) (asked w) (events w).

Definition with_settings_file (f : file_state) (w : World) : World :=
  mk_World (settings w) f (guilds w) (disk w)
           (clock w) (camera w) (transport w) (asked w) (events w).

Definition with_disk (d : gset string) (w : World) : World :=
  mk_World (settings w) (settings_file w) (guilds w) d
           (clock w) (camera w) (transport w) (asked w) (events w).

Definition next_question (w : World) : World :=
  mk_World (settings w) (settings_file w) (guilds w) (disk w)
           (clock w) (camera w) (transport w) (S (asked w)) (events w).

Definition log (e : event) (w : World) : World :=
  mk_World (settings w) (settings_file w) (guilds w) (disk w)
           (clock w) (camera w) (transport w) (asked w) (events w ++ [e]).

(** ** State and exceptions *)

Inductive result (A : Type) :=
| Ok (a : A)
| Raise (e : exn).
Arguments Ok {A} a.
Arguments Raise {A} e.

Definition M (A : Type) : Type := World -> result A * World.

Definition ret {A} (a : A) : M A := fun w => (Ok a, w).

Definition raise {A} (e : exn) : M A := fun w => (Raise e, w).

Definition bind {A B} (m : M A) (k : A -> M B) : M B :=
  fun w =>
    match m w with
    | (Ok a, w') => k a w'
    | (Raise e, w') => (Raise e, w')
    end.

Definition gets {A} (f : World -> A) : M A := fun w => (Ok (f w), w).

Definition modify (f : World -> World) : M unit := fun w => (Ok tt, f w).

Notation "'let!' x ':=' m 'in' k" := (bind m (fun x => k))
  (at level 10, x name, m at level 100, k at level 200).
Notation "m ';;;' k" := (bind m (fun _ => k))
  (at level 100, k at level 200, right associativity).

(** *** What the outside does *)

(** [datetime.now()] *)
Definition datetime_now : M datetime :=
  fun w => (Ok (clock w (asked w)), next_question w).

(** [os.system("libcamera-still -o <filename> --width <w> --height <h> -n")]:
    the camera leaves the file on disk when it exits with 0. *)
Definition libcamera_still (filename : string) (width height : Z) : M Z :=
  fun w =>
    let exit_code := camera w (asked w) in
    let d := if exit_code =? 0 then {[filename]} ∪ disk w else disk w in
    (Ok exit_code, log (Captured filename exit_code) (with_disk d (next_question w))).

(** [open(filename, "rb")] *)
Definition open_rb (filename : string) : M unit :=
  fun w => if decide (filename ∈ disk w) then (Ok tt, w)
           else (Raise FileNotFoundError, w).

(** [await channel.send(file=discord.File(file, filename))] *)
Definition channel_send (ch : channel) (filename : string) : M unit :=
  fun w =>
    match send_error (transport w (asked w)) with
    | None => (Ok tt, log (Sent ch filename) (next_question w))
    | Some e => (Raise e, log (SendFailed ch filename e) (next_question w))
    end.

(** [os.remove(filename)] *)
Definition os_remove (filename : string) : M unit :=
  fun w => if decide (filename ∈ disk w)
           then (Ok tt, log (Removed filename) (with_disk (disk w ∖ {[filename]}) w))
           else (Raise FileNotFoundError, w).

(** ** [class CameraBot] *)

(** [load_settings]: the file's dict, or the defaults when the file is
    missing or is not JSON. *)
Definition load_settings : M unit :=
  fun w =>
    match settings_file w with
    | Json d => (Ok tt, with_settings d w)
    | Missing | Undecodable => (Ok tt, with_settings default_settings w)
    end.

(** [d.update({k: v for k, v in kwargs.items() if v is not None})] *)
Definition updated (kwargs d : gmap string value) : gmap string value :=
  filter (fun kv => kv.2 <> VNone) kwargs ∪ d.

(** [save_settings] with its keyword arguments as a dict: the update, then
    the whole dict written to the file. *)
Definition save_settings (kwargs : gmap string value) : M unit :=
  modify (fun w => with_settings (updated kwargs (settings w)) w) ;;;
  modify (fun w => with_settings_file (Json (settings w)) w).

(** [take_photo(prefix, width=640, height=480)] *)
Definition take_photo (prefix : string) : M string :=
  let! stamp := datetime_now in
  let filename := prefix +:+ "_" +:+ strftime stamp +:+ ".jpg" in
  let! exit_code := libcamera_still filename 640 480 in
  if negb (exit_code =? 0)
  then raise (RuntimeError "Failed to capture photo")
  else ret filename.

(** [upload_photo(channel, filename)] *)
Definition upload_photo (ch : channel) (filename : string) : M unit :=
  open_rb filename ;;;
  channel_send ch filename ;;;
  let! flag := gets (fun w => dict_get (settings w) "delete_after_upload") in
  if truthy flag then os_remove filename else ret tt.

(** *** [photo_loop] *)

Definition lift {A} (r : result A) : M A := fun w => (r, w).

(** [datetime.strptime(s, "%H:%M").time()] with its [ValueError]. *)
Definition strptime_time (s : string) : result time :=
  match strptime_HM s with
  | Some t => Ok t
  | None => Raise ValueError
  end.

(** Python's [a % b] on integers: the sign of the divisor, and
    [ZeroDivisionError] on 0. *)
Definition py_mod (a b : Z) : result Z :=
  if b =? 0 then Raise ZeroDivisionError else Ok (a mod b).

(** [a % v] for a setting [v]: a bool counts as 0 or 1, anything that is not
    a number is a [TypeError]. *)
Definition py_mod_value (a : Z) (v : value) : result Z :=
  match v with
  | VInt n => py_mod a n
  | VBool b => py_mod a (if b then 1 else 0)
  | _ => Raise TypeError
  end.

(** [for window in v]: a list yields its windows and the empty string
    nothing; a character of a string cannot be indexed by ["start"] and the
    other values cannot be iterated, which is a [TypeError] either way. *)
Definition iterate (v : value) : result (list window) :=
  match v with
  | VList ws => Ok ws
  | VStr EmptyString => Ok []
  | _ => Raise TypeError
  end.

(** How the loop over the windows ends: by its [return], or by running out
    of windows. *)
Inductive flow := Returned | Exhausted.

(** Lines 72-81: the loop over the special windows, for the channel found. *)
Fixpoint window_loop (now : datetime) (ch : channel) (ws : list window) : M flow :=
  match ws with
  | [] => ret Exhausted
  | window :: rest =>
    let! start_t := lift (strptime_time (start window)) in
    let! end_t := lift (strptime_time (end_ window)) in
    let interval := interval window in
    if between start_t (time_of now) end_t then
      let! r := lift (py_mod (second (time_of now)) interval) in
      (if r =? 0 then
         let! filename := take_photo "special" in
         upload_photo ch filename
       else ret tt) ;;;
      ret Returned
    else window_loop now ch rest
  end.

(** Lines 84-86: the normal interval check. *)
Definition normal_check (now : datetime) (ch : channel) : M unit :=
  let! every := gets (fun w => dict_get_default (settings w) "interval_minutes" (VInt 5)) in
  let! r := lift (py_mod_value (minute (time_of now)) every) in
  if (r =? 0) && (second (time_of now) =? 0) then
    let! filename := take_photo "interval" in
    upload_photo ch filename
  else ret tt.

(** Lines 66-86: the loop over the guilds. *)
Fixpoint guild_loop (now : datetime) (channel_name : value) (gs : list guild) : M unit :=
  match gs with
  | [] => ret tt
  | guild :: rest =>
    match utils_get (text_channels guild) channel_name with
    | None => guild_loop now channel_name rest            (* continue *)
    | Some ch =>
      let! windows := gets (fun w => dict_get_default (settings w) "special_windows" (VList [])) in
      let! ws := lift (iterate windows) in
      let! f := window_loop now ch ws in
      match f with
      | Returned => ret tt                                (* return *)
      | Exhausted =>
        normal_check now ch ;;;
        guild_loop now channel_name rest
      end
    end
  end.

(** The body of the task.  [wait_until_ready] returns once the bot is
    connected and has no other effect; the tick starts at the clock read. *)
Definition photo_loop : M unit :=
  let! now := datetime_now in
  let! channel_name := gets (fun w => dict_get (settings w) "channel_name") in
  if negb (truthy channel_name) then ret tt
  else
    let! gs := gets guilds in
    guild_loop now channel_name gs.

(** ** The commands of [main] *)

Definition set_channel (channel_name : string) : M string :=
  save_settings {["channel_name" := VStr channel_name]} ;;;
  ret ("Photo channel set to #" +:+ channel_name).

Definition set_interval (minutes : Z) : M string :=
  if minutes <? 1 then ret "Interval must be at least 1 minute."
  else
    save_settings {["interval_minutes" := VInt minutes]} ;;;
    ret ("Interval set to every " +:+ pretty minutes +:+ " minutes.").

(** [windows.append] needs a list; the other values have no [append]. *)
Definition add_window (start end_ : string) (interval : Z) : M string :=
  let! windows := gets (fun w => dict_get_default (settings w) "special_windows" (VList [])) in
  match windows with
  | VList ws =>
    save_settings {["special_windows" := VList (ws ++ [mk_window start end_ interval])]} ;;;
    ret ("Special window added: " +:+ start +:+ "-" +:+ end_ +:+
         " every " +:+ pretty interval +:+ "s.")
  | _ => raise AttributeError
  end.

Definition clear_windows : M string :=
  save_settings {["special_windows" := VList []]} ;;;
  ret "All special windows cleared.".

Definition lower_char (c : ascii) : ascii :=
  let n := nat_of_ascii c in
  if (65 <=? n)%nat && (n <=? 90)%nat then ascii_of_nat (n + 32) else c.

Fixpoint lower (s : string) : string :=
  match s with
  | EmptyString => EmptyString
  | String c rest => String (lower_char c) (lower rest)
  end.

Definition set_autodelete (value : string) : M string :=
  let val := existsb (String.eqb (lower value)) ["yes"; "true"; "1"; "on"] in
  save_settings {["delete_after_upload" := VBool val]} ;;;
  ret ("Auto-delete after upload " +:+
       (if val then "enabled" else "disabled") +:+ ".").

Inductive command :=
| Setchannel (channel_name : string)
| Setinterval (minutes : Z)
| Addwindow (start end_ : string) (interval : Z)
| Clearwindows
| Autodelete (value : string).

Definition run_command (c : command) : M string :=
  match c with
  | Setchannel n => set_channel n
  | Setinterval m => set_interval m
  | Addwindow s e i => add_window s e i
  | Clearwindows => clear_windows
  | Autodelete v => set_autodelete v
  end.

(** The commands of a session, one after the other; a command that raises
    fails alone, the bot goes on to the next. *)
Fixpoint run_commands (cs : list command) (w : World) : World :=
  match cs with
  | [] => w
  | c :: rest => run_commands rest (run_command c w).2
  end.

(** [CameraBot.__init__]: empty settings, then [load_settings]. *)
Definition startup (w : World) : World :=
  (load_settings (with_settings ∅ w)).2.

(** ** The tick driver ([@tasks.loop])

    [discord.ext.tasks] calls the body again after an exception of its
    reconnect kinds ([OSError], [aiohttp.ClientError] and the like); any
    other exception is handed to the error handler and raised again, which
    ends the task.  [tasks_loop n] runs the loop over [n] cadence points and
    lists the outcomes of the evaluations it invoked. *)



(** ** Vocabulary of the specification

    The code has no value for its decision: it fires by calling [take_photo]
    and [upload_photo] in place.  The properties below name that pair of
    calls after the specification. *)

Inductive mode := Normal | Special.

Inductive decision :=
| NoAction
| Fire (m : mode).

(** The prefix [photo_loop] gives [take_photo] in each mode. *)
Definition label (m : mode) : string :=
  match m with
  | Normal => "interval"
  | Special => "special"
  end.

(** Capture, then delivery to the channel. *)
Definition on_fire (m : mode) (ch : channel) : M unit :=
  let! filename := take_photo (label m) in
  upload_photo ch filename.

Definition act (d : decision) (ch : channel) : M unit :=
  match d with
  | NoAction => ret tt
  | Fire m => on_fire m ch
  end.

(** The channels a tick can post to: the first match of each guild that has
    one, in the order of the guilds. *)
Fixpoint resolve_all (gs : list guild) (channel_name : value) : list channel :=
  match gs with
  | [] => []
  | g :: rest =>
    match utils_get (text_channels g) channel_name with
    | Some ch => ch :: resolve_all rest channel_name
    | None => resolve_all rest channel_name
    end
  end.

(** One action after the other, stopping at the first exception. *)
Fixpoint for_each {A} (f : A -> M unit) (l : list A) : M unit :=
  match l with
  | [] => ret tt
  | a :: rest => f a ;;; for_each f rest
  end.

(** A channel is set when the setting passes [if not channel_name]. *)
Definition channel_set (w : World) : Prop :=
  truthy (dict_get (settings w) "channel_name") = true.

(** The windows and the normal interval as [photo_loop] reads them. *)
Definition special_windows (w : World) : value :=
  dict_get_default (settings w) "special_windows" (VList []).

Definition interval_minutes (w : World) : value :=
  dict_get_default (settings w) "interval_minutes" (VInt 5).

(** The bounds of a window, when both are times of day. *)
Definition bounds (x : window) : option (time * time) :=
  match strptime_HM (start x), strptime_HM (end_ x) with
  | Some s, Some e => Some (s, e)
  | _, _ => None
  end.

(** [t] lies in the window: [start <= t <= end]. *)
Definition contains (x : window) (t : time) : Prop :=
  exists s e, bounds x = Some (s, e) /\ between s t e = true.

(** The window has bounds and [t] lies outside them. *)
Definition misses (x : window) (t : time) : Prop :=
  exists s e, bounds x = Some (s, e) /\ between s t e = false.

(** A window as the data model has it: two times of day and a positive
    interval. *)
Definition well_formed (x : window) : Prop :=
  is_Some (bounds x) /\ 0 < interval x.

(** The time of day of the tick that starts in [w]. *)
Definition tick_time (w : World) : time := time_of (clock w (asked w)).

Definition captures (es : list event) : nat :=
  length (List.filter (fun e => match e with Captured _ _ => true | _ => false end) es).

Definition deliveries (es : list event) : nat :=
  length (List.filter (fun e => match e with Sent _ _ => true | _ => false end) es).

(** ** Scenarios

    Worlds to run the bot in: a bot started without a settings file, at a
    clock that stands still, with a camera and a transport that work, after
    a session of commands. *)

Definition at_time (h m s : Z) : datetime :=
  mk_datetime 2024 1 1 (mk_time h m s 0).

Definition cats : channel := mk_channel 1 "cats".
Definition cats_elsewhere : channel := mk_channel 2 "cats".
Definition dogs : channel := mk_channel 3 "dogs".

Definition fresh (now : datetime) (gs : list guild) : World :=
  mk_World ∅ Missing gs ∅ (fun _ => now) (fun _ => 0) (fun _ => Delivered) 0 [].

Definition session (cs : list command) (now : datetime) (gs : list guild) : World :=
  run_commands cs (startup (fresh now gs)).

(** The window of the specification's scenario, behind a morning window and
    before a wider one that overlaps it. *)
Definition afternoon : list command :=
  [Setchannel "cats";
   Addwindow "09:00" "10:00" 10;
   Addwindow "16:30" "16:35" 30;
   Addwindow "16:00" "17:00" 7].

(** A photo on disk, auto-delete on, and a transport that gives [answer]. *)
Definition holding (photo : string) (answer : send_answer) : World :=
  mk_World (<["delete_after_upload" := VBool true]> default_settings) Missing
           [mk_guild [cats]] {[photo]}
           (fun _ => at_time 10 5 0) (fun _ => 0) (fun _ => answer) 0 [].

(** Two guilds with a channel named cats, at 10:05:00, interval 5. *)
Definition two_guilds : World :=
  session [Setchannel "cats"] (at_time 10 5 0)
          [mk_guild [dogs; cats]; mk_guild [cats_elsewhere]].

(** At 10:05:00 with a camera that exits with 1. *)
Definition broken_camera : World :=
  run_commands [Setchannel "cats"]
    (startup (mk_World ∅ Missing [mk_guild [cats]] ∅
                (fun _ => at_time 10 5 0) (fun _ => 1) (fun _ => Delivered) 0 [])).

(** Sessions that store a window the tick cannot check: an interval of 0,
    a start that is not a time of day, an end that is not one. *)
Definition zero_interval : World :=
  session [Setchannel "cats"; Addwindow "16:30" "16:35" 0]
          (at_time 16 32 30) [mk_guild [cats]].

Definition bad_start : World :=
  session [Setchannel "cats"; Addwindow "4pm" "17:00" 30]
          (at_time 10 5 0) [mk_guild [cats]].

Definition bad_end : World :=
  session [Setchannel "cats"; Addwindow "16:30" "16:75" 30]
          (at_time 10 5 0) [mk_guild [cats]].


(** The exceptions of the decision itself, as against those of the camera
    and the transport. *)
Definition decision_error (e : exn) : bool :=
  match e with
  | ValueError | ZeroDivisionError | TypeError => true
  | _ => false
  end.

(** The settings a session of commands leads to, from a start without a
    usable settings file. *)
Definition reachable (s : gmap string value) : Prop :=
  exists (cs : list command) (w0 : World),
    (forall d, settings_file w0 <> Json d) /\
    s = settings (run_commands cs (startup w0)).

(** What the commands keep true of the settings: the windows are a list and
    the normal interval is a number of at least 1. *)
Definition typed (s : gmap string value) : Prop :=
  (exists ws, s !! "special_windows" = Some (VList ws)) /\
  (exists n, 1 <= n /\ s !! "interval_minutes" = Some (VInt n)).

(** [m] leaves the settings as they are. *)
Definition keeps_settings {A} (m : M A) : Prop :=
  forall w, settings (m w).2 = settings w.

(** [m] raises only exceptions that satisfy [P]. *)
Definition raises_only {A} (P : exn -> Prop) (m : M A) : Prop :=
  forall w e w', m w = (Raise e, w') -> P e.

(** ** The rest of [main]: [snap] *)

(** [upload_photo] as [snap] calls it, with what [discord.utils.get]
    returned: on None the file is opened and [channel.send] is an attribute
    of None, an [AttributeError]. *)
Definition upload_photo_to (found : option channel) (filename : string) : M unit :=
  match found with
  | Some ch => upload_photo ch filename
  | None => open_rb filename ;;; raise AttributeError
  end.

(** [snap(ctx)]: [ctx.guild] is None in a private message; the command
    replies only when no channel is set. *)
Definition snap (ctx_guild : option guild) : M (option string) :=
  let! channel_name := gets (fun w => dict_get (settings w) "channel_name") in
  if negb (truthy channel_name)
  then ret (Some "No channel set. Use $setchannel first.")
  else
    match ctx_guild with
    | None => raise AttributeError
    | Some g =>
      let found := utils_get (text_channels g) channel_name in
      let! filename := take_photo "snap" in
      upload_photo_to found filename ;;;
      ret None
    end.

(** ** The checks of a tick, without the camera and the transport

    What lines 72-78 and 84 compute from the settings and the time before
    anything is captured: the decision of the first window that contains
    the time, else the decision of the normal interval, or the exception of
    a check. *)

Fixpoint check_windows (now : datetime) (ws : list window) : result (option decision) :=
  match ws with
  | [] => Ok None
  | x :: rest =>
    match strptime_time (start x) with
    | Raise e => Raise e
    | Ok start_t =>
      match strptime_time (end_ x) with
      | Raise e => Raise e
      | Ok end_t =>
        if between start_t (time_of now) end_t then
          match py_mod (second (time_of now)) (interval x) with
          | Raise e => Raise e
          | Ok r => Ok (Some (if r =? 0 then Fire Special else NoAction))
          end
        else check_windows now rest
      end
    end
  end.

Definition check_interval (now : datetime) (every : value) : result decision :=
  match py_mod_value (minute (time_of now)) every with
  | Raise e => Raise e
  | Ok r =>
    Ok (if (r =? 0) && (second (time_of now) =? 0) then Fire Normal else NoAction)
  end.

(** A window decided, which ends the tick, or the normal interval did,
    which leaves it in the loop over the guilds. *)
Inductive verdict :=
| ByWindow (d : decision)
| ByInterval (d : decision).

Definition evaluate (s : gmap string value) (now : datetime) : result verdict :=
  match iterate (dict_get_default s "special_windows" (VList [])) with
  | Raise e => Raise e
  | Ok ws =>
    match check_windows now ws with
    | Raise e => Raise e
    | Ok (Some d) => Ok (ByWindow d)
    | Ok None =>
      match check_interval now (dict_get_default s "interval_minutes" (VInt 5)) with
      | Raise e => Raise e
      | Ok d => Ok (ByInterval d)
      end
    end
  end.

(** What a tick does once the checks are made, for the channels found. *)
Definition enact (r : result verdict) (chs : list channel) : M unit :=
  match chs with
  | [] => ret tt
  | ch :: _ =>
    match r with
    | Raise e => raise e
    | Ok (ByWindow d) => act d ch
    | Ok (ByInterval d) => for_each (act d) chs
    end
  end.

(** [m] changes nothing but the disk, the events and the count of
    questions. *)
Definition keeps_config {A} (m : M A) : Prop :=
  forall w,
    settings (m w).2 = settings w /\
    settings_file (m w).2 = settings_file w /\
    guilds (m w).2 = guilds w /\
    clock (m w).2 = clock w /\
    camera (m w).2 = camera w /\
    transport (m w).2 = transport w.

(** [m] changes nothing but the settings and the settings file. *)
Definition keeps_outside {A} (m : M A) : Prop :=
  forall w,
    disk (m w).2 = disk w /\
    events (m w).2 = events w /\
    asked (m w).2 = asked w /\
    guilds (m w).2 = guilds w /\
    clock (m w).2 = clock w /\
    camera (m w).2 = camera w /\
    transport (m w).2 = transport w.

(** The file holds what a restart would load into the settings. *)
Definition persisted (w : World) : Prop :=
  match settings_file w with
  | Json d => settings w = d
  | Missing | Undecodable => settings w = default_settings
  end.

(** The events of [w'] are those of [w] followed by [new]. *)
Definition new_events (w w' : World) (new : list event) : Prop :=
  events w' = (events w ++ new)%list.

(** One thing the bot does between two restarts: a command, a [snap] from a
    guild or a private message, or a tick. *)
Inductive step :=
| Command (c : command)
| Snap (ctx_guild : option guild)
| Tick.

Definition run_step (st : step) (w : World) : World :=
  match st with
  | Command c => (run_command c w).2
  | Snap g => (snap g w).2
  | Tick => (photo_loop w).2
  end.

Fixpoint run_steps (sts : list step) (w : World) : World :=
  match sts with
  | [] => w
  | st :: rest => run_steps rest (run_step st w)
  end.

(** The settings as the commands leave them: every key holds a value of
    its kind. *)
Definition session_typed (s : gmap string value) : Prop :=
  (s !! "channel_name" = Some VNone \/
   exists n, s !! "channel_name" = Some (VStr n)) /\
  (exists n, 1 <= n /\ s !! "interval_minutes" = Some (VInt n)) /\
  (exists b, s !! "delete_after_upload" = Some (VBool b)) /\
  (exists ws, s !! "special_windows" = Some (VList ws)).

(** A time of day as the clock gives it: seconds within a minute, minutes
    within an hour. *)
Definition clock_time (t : time) : Prop :=
  0 <= minute t <= 59 /\ 0 <= second t <= 59 /\ 0 <= microsecond t.

(** The window with the opposite interval. *)
Definition negated (x : window) : window :=
  mk_window (start x) (end_ x) (- interval x).

(** A time of day written as HH:MM, two digits each. *)
Definition hhmm (h m : Z) : string :=
  padded 2 h +:+ ":" +:+ padded 2 m.

(** * Properties *)

(** ** The order on times of day *)

Lemma time_compare_Lt a b :
  time_compare a b = Lt <->
  hour a < hour b \/ hour a = hour b /\
  (minute a < minute b \/ minute a = minute b /\
  (second a < second b \/ second a = second b /\ microsecond a < microsecond b)).
Proof.
  unfold time_compare.
  destruct (Z.compare_spec (hour a) (hour b));
    [destruct (Z.compare_spec (minute a) (minute b));
      [destruct (Z.compare_spec (second a) (second b));
        [destruct (Z.compare_spec (microsecond a) (microsecond b))| |]| |]| |];
    split; (discriminate || lia || reflexivity).
Qed.

Lemma time_compare_Gt a b :
  time_compare a b = Gt <->
  hour b < hour a \/ hour a = hour b /\
  (minute b < minute a \/ minute a = minute b /\
  (second b < second a \/ second a = second b /\ microsecond b < microsecond a)).
Proof.
  unfold time_compare.
  destruct (Z.compare_spec (hour a) (hour b));
    [destruct (Z.compare_spec (minute a) (minute b));
      [destruct (Z.compare_spec (second a) (second b));
        [destruct (Z.compare_spec (microsecond a) (microsecond b))| |]| |]| |];
    split; (discriminate || lia || reflexivity).
Qed.

Lemma time_le_false a b : time_le a b = false <-> time_compare a b = Gt.
Proof. unfold time_le. destruct (time_compare a b); split; congruence. Qed.

Lemma time_lt_true a b : time_lt a b = true <-> time_compare a b = Lt.
Proof. unfold time_lt. destruct (time_compare a b); split; congruence. Qed.

(** [<=] on times of day is transitive. *)
Lemma time_le_trans a b c :
  time_le a b = true -> time_le b c = true -> time_le a c = true.
Proof.
  intros Hab Hbc.
  destruct (time_le a c) eqn:Hac; [reflexivity|].
  apply time_le_false, time_compare_Gt in Hac.
  assert (time_compare a b <> Gt) as Hab'
    by (intros H; apply time_le_false in H; congruence).
  assert (time_compare b c <> Gt) as Hbc'
    by (intros H; apply time_le_false in H; congruence).
  rewrite time_compare_Gt in Hab', Hbc'. lia.
Qed.

(** No time of day lies between a start and an earlier end. *)
Lemma between_empty s e t : time_lt e s = true -> between s t e = false.
Proof.
  intros Hes. unfold between.
  destruct (time_le s t) eqn:Hst; [|reflexivity].
  destruct (time_le t e) eqn:Hte; [|reflexivity].
  pose proof (time_le_trans _ _ _ Hst Hte) as Hse.
  apply time_lt_true, time_compare_Lt in Hes.
  assert (time_compare s e <> Gt) as Hse'
    by (intros H; apply time_le_false in H; congruence).
  rewrite time_compare_Gt in Hse'. lia.
Qed.

(** ** The loop over the windows, one window at a time *)

Lemma bounds_Some x s e :
  bounds x = Some (s, e) ->
  strptime_HM (start x) = Some s /\ strptime_HM (end_ x) = Some e.
Proof.
  unfold bounds. destruct (strptime_HM (start x)), (strptime_HM (end_ x));
    intros H; inversion H; auto.
Qed.

Section Window_loop.
Variables (now : datetime) (ch : channel).

(** A window with bounds that do not contain the time is passed over. *)
Lemma window_loop_miss x rest w :
  misses x (time_of now) ->
  window_loop now ch (x :: rest) w = window_loop now ch rest w.
Proof.
  intros (s & e & Hb & Hout). apply bounds_Some in Hb as [Hs He].
  cbn [window_loop]. unfold bind, lift, strptime_time.
  rewrite Hs, He, Hout. reflexivity.
Qed.

(** A window that contains the time ends the loop, fired or not. *)
Lemma window_loop_hit x rest w :
  contains x (time_of now) -> interval x <> 0 ->
  window_loop now ch (x :: rest) w =
  (act (if second (time_of now) mod interval x =? 0
        then Fire Special else NoAction) ch ;;;
   ret Returned) w.
Proof.
  intros (s & e & Hb & Hin) Hi. apply bounds_Some in Hb as [Hs He].
  cbn [window_loop]. unfold bind, lift, strptime_time, py_mod.
  rewrite Hs, He, Hin.
  destruct (interval x =? 0) eqn:E; [apply Z.eqb_eq in E; contradiction|].
  destruct (second (time_of now) mod interval x =? 0); reflexivity.
Qed.

Lemma window_loop_misses before rest w :
  Forall (fun x => misses x (time_of now)) before ->
  window_loop now ch (before ++ rest) w = window_loop now ch rest w.
Proof.
  induction 1 as [|x before Hx _ IH]; [reflexivity|].
  rewrite <- app_comm_cons, window_loop_miss by exact Hx. exact IH.
Qed.
End Window_loop.

(** C8: a window whose start is strictly later than its end contains no time
    of day ([start <= t <= end] is false for every [t]), so the loop over
    the windows passes it over at every tick: wherever it stands among the
    windows, the loop runs as if it were not there, and it never fires. *)
Theorem inverted_window_never_matches (x : window) (s e : time) :
  strptime_HM (start x) = Some s ->
  strptime_HM (end_ x) = Some e ->
  time_lt e s = true ->
  (forall t, between s t e = false) /\
  (forall t, ~ contains x t) /\
  (forall now ch before after w,
     window_loop now ch (before ++ x :: after) w =
     window_loop now ch (before ++ after) w).
Proof.
  intros Hs He Hlt.
  assert (bounds x = Some (s, e)) as Hb by (unfold bounds; rewrite Hs, He; reflexivity).
  assert (forall t, between s t e = false) as Hnone
    by (intros t; apply between_empty, Hlt).
  split; [exact Hnone|]. split.
  - intros t (s' & e' & Hb' & Hin). rewrite Hb in Hb'. inversion Hb'; subst.
    rewrite Hnone in Hin. discriminate.
  - intros now ch before after. induction before as [|y before IH]; intros w.
    + cbn [app]. apply window_loop_miss. exists s, e. auto.
    + rewrite <- !app_comm_cons. cbn [window_loop]. unfold bind, lift.
      destruct (strptime_time (start y)); [|reflexivity].
      destruct (strptime_time (end_ y)); [|reflexivity].
      destruct (between _ _ _); [reflexivity|]. apply IH.
Qed.

(** A window from 23:00 to 01:00, at every moment of the day. *)
Lemma inverted_window_never_matches_witness :
  (forall t, between (mk_time 23 0 0 0) t (mk_time 1 0 0 0) = false) /\
  (forall t, ~ contains (mk_window "23:00" "01:00" 30) t) /\
  (forall now ch before after w,
     window_loop now ch (before ++ mk_window "23:00" "01:00" 30 :: after) w =
     window_loop now ch (before ++ after) w).
Proof.
  apply (inverted_window_never_matches (mk_window "23:00" "01:00" 30));
    reflexivity.
Defined.

(** ** The tick *)

(** C3: when the channel name is absent (the key is missing or holds None),
    [photo_loop] returns at once, whatever the time and the guilds: it has
    read the clock and nothing else, so no photo is taken, nothing is sent
    and no file is touched. *)
Theorem no_channel_no_action (w : World) :
  dict_get (settings w) "channel_name" = VNone ->
  photo_loop w = (Ok tt, next_question w) /\
  events (photo_loop w).2 = events w /\
  disk (photo_loop w).2 = disk w.
Proof.
  intros Hnone.
  assert (photo_loop w = (Ok tt, next_question w)) as Hrun.
  { unfold photo_loop, bind, datetime_now, gets. cbn [settings next_question].
    rewrite Hnone. reflexivity. }
  rewrite Hrun. auto.
Qed.

(** The settings the bot starts with when there is no settings file. *)
Lemma no_channel_no_action_witness :
  let w := mk_World default_settings Missing [mk_guild [mk_channel 1 "cats"]] ∅
             (fun _ => mk_datetime 2024 1 1 (mk_time 10 5 0 0))
             (fun _ => 0) (fun _ => Delivered) 0 [] in
  photo_loop w = (Ok tt, next_question w) /\
  events (photo_loop w).2 = events w /\
  disk (photo_loop w).2 = disk w.
Proof.
  intros w. apply (no_channel_no_action w). reflexivity.
Defined.

(** *** What a tick leaves alone *)

Lemma keeps_ret {A} (a : A) : keeps_settings (ret a).
Proof. intros w. reflexivity. Qed.

Lemma keeps_raise {A} e : keeps_settings (@raise A e).
Proof. intros w. reflexivity. Qed.

Lemma keeps_lift {A} (r : result A) : keeps_settings (lift r).
Proof. intros w. reflexivity. Qed.

Lemma keeps_gets {A} (f : World -> A) : keeps_settings (gets f).
Proof. intros w. reflexivity. Qed.

Lemma keeps_bind {A B} (m : M A) (k : A -> M B) :
  keeps_settings m -> (forall a, keeps_settings (k a)) -> keeps_settings (bind m k).
Proof.
  intros Hm Hk w. unfold bind. specialize (Hm w).
  destruct (m w) as [[a|e] w'] eqn:E; cbn [snd] in *.
  - rewrite Hk. exact Hm.
  - exact Hm.
Qed.

Lemma keeps_datetime_now : keeps_settings datetime_now.
Proof. intros w. reflexivity. Qed.

Lemma keeps_libcamera_still f a b : keeps_settings (libcamera_still f a b).
Proof. intros w. reflexivity. Qed.

Lemma keeps_open_rb f : keeps_settings (open_rb f).
Proof. intros w. unfold open_rb. destruct (decide _); reflexivity. Qed.

Lemma keeps_channel_send ch f : keeps_settings (channel_send ch f).
Proof. intros w. unfold channel_send. destruct (send_error _); reflexivity. Qed.

Lemma keeps_os_remove f : keeps_settings (os_remove f).
Proof. intros w. unfold os_remove. destruct (decide _); reflexivity. Qed.

Lemma keeps_take_photo p : keeps_settings (take_photo p).
Proof.
  unfold take_photo. apply keeps_bind; [apply keeps_datetime_now|]. intros d.
  apply keeps_bind; [apply keeps_libcamera_still|]. intros c.
  destruct (negb _); [apply keeps_raise | apply keeps_ret].
Qed.

Lemma keeps_upload_photo ch f : keeps_settings (upload_photo ch f).
Proof.
  unfold upload_photo. apply keeps_bind; [apply keeps_open_rb|]. intros _.
  apply keeps_bind; [apply keeps_channel_send|]. intros _.
  apply keeps_bind; [apply keeps_gets|]. intros v.
  destruct (truthy v); [apply keeps_os_remove | apply keeps_ret].
Qed.

Lemma keeps_act d ch : keeps_settings (act d ch).
Proof.
  destruct d as [|m]; [apply keeps_ret|].
  unfold act, on_fire. apply keeps_bind; [apply keeps_take_photo|].
  intros f. apply keeps_upload_photo.
Qed.

(** *** The loop over the guilds *)

Section Guild_loop.
Variables (now : datetime) (channel_name : value).

(** When a window contains the time, the tick is over with the first
    guild that has the channel. *)
Lemma guild_loop_special before x after gs w :
  special_windows w = VList (before ++ x :: after) ->
  Forall (fun y => misses y (time_of now)) before ->
  contains x (time_of now) -> interval x <> 0 ->
  guild_loop now channel_name gs w =
  match resolve_all gs channel_name with
  | [] => (Ok tt, w)
  | ch :: _ =>
    act (if second (time_of now) mod interval x =? 0
         then Fire Special else NoAction) ch w
  end.
Proof.
  intros Hws Hbefore Hin Hi.
  induction gs as [|g gs IH]; [reflexivity|].
  cbn [guild_loop resolve_all].
  destruct (utils_get (text_channels g) channel_name) as [ch|]; [|exact IH].
  unfold bind at 1. unfold gets. fold (special_windows w). rewrite Hws.
  unfold bind at 1. cbn [lift iterate].
  unfold bind at 1.
  rewrite window_loop_misses, window_loop_hit by assumption.
  unfold bind at 1.
  destruct (act _ ch w) as [[[]|e] w']; reflexivity.
Qed.

(** The normal interval check, for a number of minutes that is not 0. *)
Lemma normal_check_eq n ch w :
  interval_minutes w = VInt n -> n <> 0 ->
  normal_check now ch w =
  act (if (minute (time_of now) mod n =? 0) && (second (time_of now) =? 0)
       then Fire Normal else NoAction) ch w.
Proof.
  intros Hn Hn0. unfold normal_check.
  unfold bind at 1. unfold gets. fold (interval_minutes w). rewrite Hn.
  unfold bind at 1. cbn [lift py_mod_value]. unfold py_mod.
  destruct (n =? 0) eqn:E; [apply Z.eqb_eq in E; contradiction|].
  destruct (_ && _); reflexivity.
Qed.

(** When every window misses the time, each guild that has the channel
    gets the outcome of the normal interval check. *)
Lemma guild_loop_normal ws n gs w :
  special_windows w = VList ws ->
  Forall (fun y => misses y (time_of now)) ws ->
  interval_minutes w = VInt n -> n <> 0 ->
  guild_loop now channel_name gs w =
  for_each (act (if (minute (time_of now) mod n =? 0) && (second (time_of now) =? 0)
                 then Fire Normal else NoAction))
           (resolve_all gs channel_name) w.
Proof.
  intros Hws Hmiss Hn Hn0. revert w Hws Hn.
  induction gs as [|g gs IH]; intros w Hws Hn; [reflexivity|].
  cbn [guild_loop resolve_all].
  destruct (utils_get (text_channels g) channel_name) as [ch|]; [|apply IH; assumption].
  cbn [for_each].
  unfold bind at 1. unfold gets. fold (special_windows w). rewrite Hws.
  unfold bind at 1. cbn [lift iterate].
  unfold bind at 1.
  rewrite <- (app_nil_r ws), window_loop_misses by assumption.
  cbn [window_loop ret].
  unfold bind. rewrite (normal_check_eq n) by assumption.
  set (d := if (minute (time_of now) mod n =? 0) && (second (time_of now) =? 0)
            then Fire Normal else NoAction).
  pose proof (keeps_act d ch w) as Hkeep.
  destruct (act d ch w) as [[[]|e] w'] eqn:E'; cbn [snd] in Hkeep; [|reflexivity].
  apply IH.
  - unfold special_windows. rewrite Hkeep. exact Hws.
  - unfold interval_minutes. rewrite Hkeep. exact Hn.
Qed.
End Guild_loop.

(** The tick, once the channel name has passed [if not channel_name]. *)
Lemma photo_loop_channel_set (w : World) :
  channel_set w ->
  photo_loop w =
  guild_loop (clock w (asked w)) (dict_get (settings w) "channel_name")
             (guilds w) (next_question w).
Proof.
  intros Hset. unfold photo_loop, bind, datetime_now, gets.
  cbn [settings guilds next_question]. unfold channel_set in Hset.
  rewrite Hset. reflexivity.
Qed.

(** C1: with a channel set, when some window contains the time of day of the
    tick, the earliest-declared such window decides the tick alone:
    [photo_loop] fires in special mode when the second of the tick is a
    multiple of that window's interval and does nothing otherwise.  The
    outcome mentions neither the windows declared after it nor the normal
    interval: they are not consulted, whatever they hold.  The windows
    declared before it have bounds that are times of day, and the interval
    of the deciding window is not 0, as in the data model. *)
Theorem first_matching_window_decides
    (w : World) (before after : list window) (x : window) :
  channel_set w ->
  special_windows w = VList (before ++ x :: after) ->
  Forall (fun y => misses y (tick_time w)) before ->
  contains x (tick_time w) ->
  interval x <> 0 ->
  photo_loop w =
  match resolve_all (guilds w) (dict_get (settings w) "channel_name") with
  | [] => (Ok tt, next_question w)
  | ch :: _ =>
    act (if second (tick_time w) mod interval x =? 0
         then Fire Special else NoAction) ch (next_question w)
  end.
Proof.
  intros Hset Hws Hbefore Hin Hi.
  rewrite photo_loop_channel_set by exact Hset.
  apply (guild_loop_special _ _ before x after); assumption.
Qed.

(** C2: with a channel set, when no window contains the time of day of the
    tick, the decision of [photo_loop] is [Fire Normal] if and only if the
    minute of the tick is a multiple of the normal interval and its second
    is 0, and [NoAction] otherwise; the tick acts on that decision for the
    channel of each guild that has one.  The windows have bounds that are
    times of day and the normal interval is a number other than 0, as in
    the data model. *)
Theorem normal_interval_decides (w : World) (ws : list window) (n : Z) :
  channel_set w ->
  special_windows w = VList ws ->
  Forall (fun y => misses y (tick_time w)) ws ->
  interval_minutes w = VInt n ->
  n <> 0 ->
  let d := if (minute (tick_time w) mod n =? 0) && (second (tick_time w) =? 0)
           then Fire Normal else NoAction in
  photo_loop w =
    for_each (act d)
             (resolve_all (guilds w) (dict_get (settings w) "channel_name"))
             (next_question w) /\
  (d = Fire Normal <-> minute (tick_time w) mod n = 0 /\ second (tick_time w) = 0) /\
  (d = NoAction <-> ~ (minute (tick_time w) mod n = 0 /\ second (tick_time w) = 0)).
Proof.
  intros Hset Hws Hmiss Hn Hn0 d. split.
  - rewrite photo_loop_channel_set by exact Hset.
    apply (guild_loop_normal _ _ ws n); assumption.
  - unfold d.
    destruct (Z.eqb_spec (minute (tick_time w) mod n) 0) as [Em|Em];
      destruct (Z.eqb_spec (second (tick_time w)) 0) as [Es|Es]; cbn [andb];
      repeat split; intros; try discriminate; try tauto; try congruence.
Qed.

(** The scenario of the specification: window 16:30-16:35 every 30 s, at
    16:32:30, behind an earlier window and before a wider one. *)
Lemma first_matching_window_decides_witness :
  let w := session afternoon (at_time 16 32 30) [mk_guild [dogs]; mk_guild [dogs; cats]] in
  photo_loop w = act (Fire Special) cats (next_question w).
Proof.
  intros w.
  rewrite (first_matching_window_decides w
             [mk_window "09:00" "10:00" 10]
             [mk_window "16:00" "17:00" 7]
             (mk_window "16:30" "16:35" 30)).
  - vm_compute. reflexivity.
  - vm_compute. reflexivity.
  - vm_compute. reflexivity.
  - constructor; [|constructor].
    exists (mk_time 9 0 0 0), (mk_time 10 0 0 0). split; vm_compute; reflexivity.
  - exists (mk_time 16 30 0 0), (mk_time 16 35 0 0). split; vm_compute; reflexivity.
  - discriminate.
Defined.

(** The scenario of the specification: interval 5 and no windows, at
    10:05:00. *)
Lemma normal_interval_decides_witness :
  let w := session [Setchannel "cats"] (at_time 10 5 0) [mk_guild [dogs; cats]] in
  photo_loop w = for_each (act (Fire Normal)) [cats] (next_question w).
Proof.
  intros w.
  rewrite (proj1 (normal_interval_decides w [] 5 ltac:(vm_compute; reflexivity)
                    ltac:(vm_compute; reflexivity) ltac:(constructor)
                    ltac:(vm_compute; reflexivity) ltac:(discriminate))).
  vm_compute. reflexivity.
Defined.

(** *** The scenarios of the specification, run *)

(** Interval 5, no windows: 10:05:30 and 10:06:00 do nothing. *)
Example scenario_normal_half_minute :
  let w := session [Setchannel "cats"] (at_time 10 5 30) [mk_guild [cats]] in
  photo_loop w = (Ok tt, next_question w).
Proof. vm_compute. reflexivity. Qed.

Example scenario_normal_off_minute :
  let w := session [Setchannel "cats"] (at_time 10 6 0) [mk_guild [cats]] in
  photo_loop w = (Ok tt, next_question w).
Proof. vm_compute. reflexivity. Qed.

(** Window 16:30-16:35 every 30 s: 16:32:15 does nothing. *)
Example scenario_special_quiet :
  let w := session [Setchannel "cats"; Addwindow "16:30" "16:35" 30]
                   (at_time 16 32 15) [mk_guild [cats]] in
  photo_loop w = (Ok tt, next_question w).
Proof. vm_compute. reflexivity. Qed.

(** The same window at 16:40:00, outside it: the normal interval fires. *)
Example scenario_outside_window :
  let w := session [Setchannel "cats"; Addwindow "16:30" "16:35" 30]
                   (at_time 16 40 0) [mk_guild [cats]] in
  photo_loop w = act (Fire Normal) cats (next_question w).
Proof. vm_compute. reflexivity. Qed.

(** Overlapping windows at 16:32:14: the earlier one (every 30 s) decides
    and does nothing, although the later one (every 7 s) would fire. *)
Example scenario_overlap_first_wins :
  let w := session afternoon (at_time 16 32 14) [mk_guild [cats]] in
  photo_loop w = (Ok tt, next_question w).
Proof. vm_compute. reflexivity. Qed.

(** The window's end is 16:35:00 sharp: a second later is outside it, and
    the next window in the list, which contains the time, decides. *)
Example scenario_end_is_sharp :
  let w := session afternoon (at_time 16 35 7) [mk_guild [cats]] in
  photo_loop w = act (Fire Special) cats (next_question w).
Proof. vm_compute. reflexivity. Qed.

(** ** The settings store *)

(** The dict after [dict.update] with the arguments that are not None, key
    by key. *)
Lemma lookup_update (kwargs d : gmap string value) (key : string) :
  updated kwargs d !! key =
  match kwargs !! key with
  | Some v => if decide (v = VNone) then d !! key else Some v
  | None => d !! key
  end.
Proof.
  unfold updated. rewrite lookup_union, map_lookup_filter.
  destruct (kwargs !! key) as [v|]; cbn.
  - destruct (decide (v = VNone)) as [->|Hv].
    + rewrite option_guard_False by (cbn; congruence). cbn.
      destruct (d !! key); reflexivity.
    + rewrite option_guard_True by (cbn; congruence). cbn.
      destruct (d !! key); reflexivity.
  - destruct (d !! key); reflexivity.
Qed.

(** [save_settings] in one step: the dict in memory and the file hold the
    updated settings. *)
Lemma save_settings_run (kwargs : gmap string value) (w : World) :
  save_settings kwargs w =
  (Ok tt, with_settings_file (Json (updated kwargs (settings w)))
            (with_settings (updated kwargs (settings w)) w)).
Proof. reflexivity. Qed.

(** C9: [save_settings] with a partial update and then [load_settings] give
    the settings held before the save, merged with exactly the fields of the
    update that are not None: a key of the update with a value other than
    None holds that value, every other key holds what it held before.  The
    load takes them from the file the save wrote, not from memory: whatever
    dict [s'] the memory holds when [load_settings] is called (the one just
    saved, the empty dict of a restart, anything else), the load replaces
    it by the merged settings.  All calls return normally. *)
Theorem save_then_load (w : World) (kwargs s' : gmap string value) :
  let saved := save_settings kwargs w in
  let loaded := load_settings saved.2 in
  let reloaded := load_settings (with_settings s' saved.2) in
  saved.1 = Ok tt /\ loaded.1 = Ok tt /\ reloaded.1 = Ok tt /\
  settings reloaded.2 = settings loaded.2 /\
  forall key,
    settings reloaded.2 !! key =
    match kwargs !! key with
    | Some v => if decide (v = VNone) then settings w !! key else Some v
    | None => settings w !! key
    end.
Proof.
  cbn zeta. rewrite save_settings_run. unfold load_settings.
  cbn [fst snd settings settings_file with_settings with_settings_file].
  repeat split. intros key. apply lookup_update.
Qed.

(** ** Delivery and cleanup *)

(** C7: for a photo that is on disk, when the delivery fails [upload_photo]
    raises before it reaches the deletion: the file stays on disk and the
    only thing done is the failed send.  When the delivery succeeds and
    [delete_after_upload] is true, the file is deleted, and the deletion
    comes after the send. *)
Theorem upload_keeps_or_deletes (w : World) (ch : channel) (filename : string) :
  filename ∈ disk w ->
  (forall e, send_error (transport w (asked w)) = Some e ->
     exists w',
       upload_photo ch filename w = (Raise e, w') /\
       disk w' = disk w /\ filename ∈ disk w' /\
       events w' = (events w ++ [SendFailed ch filename e])%list) /\
  (transport w (asked w) = Delivered ->
   truthy (dict_get (settings w) "delete_after_upload") = true ->
     exists w',
       upload_photo ch filename w = (Ok tt, w') /\
       disk w' = disk w ∖ {[filename]} /\ (filename ∉ disk w') /\
       events w' = (events w ++ [Sent ch filename; Removed filename])%list).
Proof.
  intros Hdisk. split.
  - intros e He. eexists. unfold upload_photo, bind, open_rb, channel_send.
    rewrite decide_True by exact Hdisk. rewrite He.
    repeat split. exact Hdisk.
  - intros Hsend Hflag. eexists.
    unfold upload_photo, bind, open_rb, channel_send, gets, os_remove.
    rewrite decide_True by exact Hdisk. rewrite Hsend.
    cbn [send_error settings disk log next_question with_disk events]. rewrite Hflag.
    rewrite decide_True by exact Hdisk.
    cbn [settings disk log next_question with_disk events].
    repeat split.
    + cbn. intros Hin. apply elem_of_difference in Hin as [_ Hin].
      apply Hin, elem_of_singleton. reflexivity.
    + cbn. rewrite <- app_assoc. reflexivity.
Qed.

(** A photo on disk with auto-delete on: a refused delivery keeps it, a
    delivery that succeeds removes it after the send. *)
Lemma upload_keeps_or_deletes_witness :
  let photo := "interval_2024-01-01_10-05-00.jpg" in
  (exists w',
     upload_photo cats photo (holding photo Refused) =
       (Raise HTTPException, w') /\
     photo ∈ disk w' /\
     events w' = [SendFailed cats photo HTTPException]) /\
  (exists w',
     upload_photo cats photo (holding photo Delivered) = (Ok tt, w') /\
     (photo ∉ disk w') /\
     events w' = [Sent cats photo; Removed photo]).
Proof.
  intros photo.
  assert (forall a, photo ∈ disk (holding photo a)) as Hdisk
    by (intros a; vm_compute; reflexivity).
  split.
  - destruct (proj1 (upload_keeps_or_deletes (holding photo Refused)
                       cats photo (Hdisk _)) HTTPException eq_refl)
      as (w' & Hrun & _ & Hin & Hev).
    exists w'. auto.
  - destruct (proj2 (upload_keeps_or_deletes (holding photo Delivered)
                       cats photo (Hdisk _)) eq_refl eq_refl)
      as (w' & Hrun & _ & Hout & Hev).
    exists w'. auto.
Defined.

(** ** The command boundary *)

(** [setinterval] refuses a number of minutes below 1: the reply says so and
    nothing is stored. *)
Lemma set_interval_rejects (w : World) (minutes : Z) :
  minutes < 1 ->
  set_interval minutes w = (Ok "Interval must be at least 1 minute.", w).
Proof.
  intros Hlt. unfold set_interval.
  destruct (Z.ltb_spec minutes 1); [reflexivity | lia].
Qed.

(** C4: [addwindow] has no such check.  A window with an interval below 1
    is appended to the windows and written to the settings file like any
    other, so the claim that such an update is rejected and never stored
    fails for the special windows. *)
Theorem add_window_stores_any_interval
    (w : World) (ws : list window) (s e : string) (i : Z) :
  special_windows w = VList ws ->
  i < 1 ->
  exists reply w',
    add_window s e i w = (Ok reply, w') /\
    settings w' !! "special_windows" = Some (VList (ws ++ [mk_window s e i])) /\
    settings_file w' = Json (settings w').
Proof.
  intros Hws _. unfold add_window. unfold bind at 1. unfold gets.
  fold (special_windows w). rewrite Hws.
  do 2 eexists. unfold bind. rewrite save_settings_run. unfold ret.
  repeat split.
  cbn [settings settings_file with_settings with_settings_file].
  rewrite lookup_update, lookup_singleton_eq.
  destruct (decide _) as [H|_]; [discriminate H | reflexivity].
Qed.

(** [$addwindow 16:30 16:35 0] on a bot that has just started. *)
Lemma add_window_stores_any_interval_witness :
  exists reply w',
    add_window "16:30" "16:35" 0 (startup (fresh (at_time 10 0 0) [])) = (Ok reply, w') /\
    settings w' !! "special_windows" = Some (VList ([] ++ [mk_window "16:30" "16:35" 0])) /\
    settings_file w' = Json (settings w').
Proof.
  apply (add_window_stores_any_interval
           (startup (fresh (at_time 10 0 0) [])) [] "16:30" "16:35" 0).
  - vm_compute. reflexivity.
  - lia.
Defined.

(** ** One tick, several guilds *)

(** C5: at 10:05:00 with interval 5 and two guilds that each have a channel
    named cats, one tick takes two photos and sends two: the normal branch
    does not leave the loop over the guilds after it has fired, where the
    claim has at most one capture and one delivery a tick. *)
Theorem normal_fire_once_per_guild :
  let after := (photo_loop two_guilds).2 in
  (photo_loop two_guilds).1 = Ok tt /\
  captures (events after) = 2%nat /\
  deliveries (events after) = 2%nat /\
  events after =
    [Captured "interval_2024-01-01_10-05-00.jpg" 0;
     Sent cats "interval_2024-01-01_10-05-00.jpg";
     Captured "interval_2024-01-01_10-05-00.jpg" 0;
     Sent cats_elsewhere "interval_2024-01-01_10-05-00.jpg"].
Proof. vm_compute. repeat split; reflexivity. Qed.

(** ** The tick driver *)

(** When no guild has the channel, the tick returns normally. *)
Lemma guild_loop_unresolved now channel_name gs w :
  resolve_all gs channel_name = [] ->
  guild_loop now channel_name gs w = (Ok tt, w).
Proof.
  induction gs as [|g gs IH]; [reflexivity|]. cbn [resolve_all guild_loop].
  destruct (utils_get (text_channels g) channel_name); [discriminate | exact IH].
Qed.

Lemma photo_loop_unresolved (w : World) :
  resolve_all (guilds w) (dict_get (settings w) "channel_name") = [] ->
  photo_loop w = (Ok tt, next_question w).
Proof.
  intros Hnone. unfold photo_loop, bind, datetime_now, gets.
  cbn [settings guilds next_question].
  destruct (truthy _); [|reflexivity]. cbn [negb].
  apply guild_loop_unresolved, Hnone.
Qed.






(** ** Windows that make the tick raise *)

(** *** What the commands keep true *)

Lemma lookup_updated_singleton (k : string) (v : value) (d : gmap string value) (key : string) :
  v <> VNone ->
  updated {[k := v]} d !! key = if decide (k = key) then Some v else d !! key.
Proof.
  intros Hv. rewrite lookup_update, lookup_singleton.
  destruct (decide (k = key)); [|reflexivity].
  destruct (decide (v = VNone)); [contradiction | reflexivity].
Qed.

Lemma typed_default : typed default_settings.
Proof.
  split; [exists [] | exists 5; split; [lia|]]; reflexivity.
Qed.

Lemma typed_startup (w0 : World) :
  (forall d, settings_file w0 <> Json d) -> typed (settings (startup w0)).
Proof.
  intros Hfile. unfold startup, load_settings. cbn [settings_file with_settings].
  destruct (settings_file w0) as [| |d]; [apply typed_default..|].
  destruct (Hfile d); reflexivity.
Qed.

(** Saving one key that is neither the windows nor the normal interval. *)
Lemma typed_save_other (k : string) (v : value) (w : World) :
  v <> VNone -> k <> "special_windows" -> k <> "interval_minutes" ->
  typed (settings w) -> typed (settings (save_settings {[k := v]} w).2).
Proof.
  intros Hv Hk1 Hk2 [Hws Hn]. rewrite save_settings_run.
  cbn [snd settings with_settings with_settings_file]. unfold typed.
  rewrite !lookup_updated_singleton by exact Hv.
  rewrite !decide_False by assumption. auto.
Qed.

Lemma typed_run_command (c : command) (w : World) :
  typed (settings w) -> typed (settings (run_command c w).2).
Proof.
  intros Ht. destruct c as [n|m|s e i| |v]; cbn [run_command].
  - unfold set_channel, bind.
    pose proof (typed_save_other "channel_name" (VStr n) w) as H.
    destruct (save_settings _ w) as [[[]|x] w']; cbn [snd] in *;
      apply H; (discriminate || exact Ht).
  - unfold set_interval. destruct (Z.ltb_spec m 1) as [|Hm]; [exact Ht|].
    unfold bind. rewrite save_settings_run. cbn [snd ret settings with_settings with_settings_file].
    destruct Ht as [Hws Hn]. unfold typed.
    rewrite !lookup_updated_singleton by discriminate.
    rewrite decide_False by discriminate. rewrite decide_True by reflexivity.
    split; [exact Hws | exists m; auto].
  - unfold add_window. unfold bind at 1. unfold gets.
    destruct (dict_get_default _ _ _) as [| | | |ws]; try exact Ht.
    unfold bind. rewrite save_settings_run. cbn [snd ret settings with_settings with_settings_file].
    destruct Ht as [Hws Hn]. unfold typed.
    rewrite !lookup_updated_singleton by discriminate.
    rewrite decide_True by reflexivity. rewrite decide_False by discriminate.
    split; [eexists; reflexivity | exact Hn].
  - unfold clear_windows, bind. rewrite save_settings_run.
    cbn [snd ret settings with_settings with_settings_file].
    destruct Ht as [Hws Hn]. unfold typed.
    rewrite !lookup_updated_singleton by discriminate.
    rewrite decide_True by reflexivity. rewrite decide_False by discriminate.
    split; [eexists; reflexivity | exact Hn].
  - unfold set_autodelete, bind.
    set (val := existsb _ _).
    pose proof (typed_save_other "delete_after_upload" (VBool val) w) as H.
    destruct (save_settings _ w) as [[[]|x] w']; cbn [snd] in *;
      apply H; (discriminate || exact Ht).
Qed.

Lemma typed_run_commands (cs : list command) (w : World) :
  typed (settings w) -> typed (settings (run_commands cs w)).
Proof.
  revert w. induction cs as [|c cs IH]; intros w Ht; [exact Ht|].
  cbn [run_commands]. apply IH, typed_run_command, Ht.
Qed.

(** Settings that the commands lead to are typed. *)
Lemma reachable_typed (s : gmap string value) : reachable s -> typed s.
Proof.
  intros (cs & w0 & Hfile & ->). apply typed_run_commands, typed_startup, Hfile.
Qed.

(** *** What firing can raise *)

Lemma raises_only_bind {A B} (P : exn -> Prop) (m : M A) (k : A -> M B) :
  raises_only P m -> (forall a, raises_only P (k a)) -> raises_only P (bind m k).
Proof.
  intros Hm Hk w e w' Hrun. unfold bind in Hrun.
  destruct (m w) as [[a|e1] w1] eqn:E.
  - apply (Hk a w1 e w'), Hrun.
  - inversion Hrun; subst. apply (Hm w e w'), E.
Qed.

Lemma raises_only_total {A} (P : exn -> Prop) (m : M A) :
  (forall w, exists a w', m w = (Ok a, w')) -> raises_only P m.
Proof.
  intros Hm w e w' Hrun. destruct (Hm w) as (a & w1 & H). congruence.
Qed.

(** Capture and delivery raise none of the decision's exceptions. *)
Lemma act_raises (d : decision) (ch : channel) :
  raises_only (fun e => decision_error e = false) (act d ch).
Proof.
  destruct d as [|m]; [intros w e w' H; discriminate H|].
  unfold act, on_fire, take_photo, upload_photo.
  repeat (apply raises_only_bind; [|intros ?]).
  - apply raises_only_total. intros w. do 2 eexists. reflexivity.
  - apply raises_only_total. intros w. do 2 eexists. reflexivity.
  - destruct (negb _); intros w e w' H; inversion H. reflexivity.
  - intros w e w' H. unfold open_rb in H.
    destruct (decide _); inversion H. reflexivity.
  - intros w e w' H. unfold channel_send in H.
    destruct (transport w (asked w)); inversion H; reflexivity.
  - apply raises_only_total. intros w. do 2 eexists. reflexivity.
  - destruct (truthy _); intros w e w' H; [|discriminate H].
    unfold os_remove in H. destruct (decide _); inversion H. reflexivity.
Qed.

Lemma for_each_act_raises (d : decision) (chs : list channel) :
  raises_only (fun e => decision_error e = false) (for_each (act d) chs).
Proof.
  induction chs as [|ch chs IH]; [intros w e w' H; discriminate H|].
  cbn [for_each]. apply raises_only_bind; [apply act_raises | intros _; exact IH].
Qed.

(** Among well-formed windows, either all miss the time or there is a first
    one that contains it. *)
Lemma well_formed_split (ws : list window) (t : time) :
  Forall well_formed ws ->
  Forall (fun y => misses y t) ws \/
  exists (before : list window) (x : window) (after : list window),
    ws = (before ++ x :: after)%list /\
    Forall (fun y => misses y t) before /\
    contains x t /\ interval x <> 0.
Proof.
  induction 1 as [|x ws [[[s e] Hb] Hpos] _ IH]; [left; constructor|].
  destruct (between s t e) eqn:Hin.
  - right. exists [], x, ws. repeat split; [constructor| |lia].
    exists s, e. auto.
  - assert (misses x t) as Hx by (exists s, e; auto).
    destruct IH as [Hall | (before & y & after & -> & Hbefore & Hy & Hi)].
    + left. constructor; assumption.
    + right. exists (x :: before), y, after. repeat split; try assumption.
      constructor; assumption.
Qed.

(** *** Windows the loop cannot check *)

(** A window without bounds raises when the loop reaches it. *)
Lemma window_loop_unparseable now ch x rest w :
  bounds x = None ->
  window_loop now ch (x :: rest) w = (Raise ValueError, w).
Proof.
  intros Hb. unfold bounds in Hb. cbn [window_loop].
  unfold bind, lift, strptime_time.
  destruct (strptime_HM (start x)); [|reflexivity].
  destruct (strptime_HM (end_ x)); [discriminate Hb | reflexivity].
Qed.

(** A window with interval 0 raises when it contains the time. *)
Lemma window_loop_zero now ch x rest w :
  contains x (time_of now) -> interval x = 0 ->
  window_loop now ch (x :: rest) w = (Raise ZeroDivisionError, w).
Proof.
  intros (s & e & Hb & Hin) Hi. apply bounds_Some in Hb as [Hs He].
  cbn [window_loop]. unfold bind, lift, strptime_time, py_mod.
  rewrite Hs, He, Hin, Hi. reflexivity.
Qed.

(** When the loop over the windows raises without having done anything, so
    does the loop over the guilds at the first guild that has the channel. *)
Lemma guild_loop_raises now channel_name ws e gs w :
  special_windows w = VList ws ->
  (forall ch, window_loop now ch ws w = (Raise e, w)) ->
  guild_loop now channel_name gs w =
  match resolve_all gs channel_name with
  | [] => (Ok tt, w)
  | _ :: _ => (Raise e, w)
  end.
Proof.
  intros Hws Hraise. induction gs as [|g gs IH]; [reflexivity|].
  cbn [guild_loop resolve_all].
  destruct (utils_get (text_channels g) channel_name) as [ch|]; [|exact IH].
  unfold bind at 1. unfold gets. fold (special_windows w). rewrite Hws.
  unfold bind at 1. cbn [lift iterate]. unfold bind at 1.
  rewrite Hraise. reflexivity.
Qed.

(** C10: the [addwindow] command leads to settings on which the tick raises
    while it checks a window, before it has taken a photo or sent anything:
    [ZeroDivisionError] on a window with interval 0 that contains the time,
    [ValueError] on a window whose start or whose end is not HH:MM.  This is
    so whenever the loop reaches such a window (a channel is set, a guild
    has it, the windows declared before have bounds and miss the time).
    When every stored window has a positive interval and bounds that are
    times of day, the tick raises none of the decision's exceptions:
    whatever it raises comes from the camera or the transport. *)
Theorem malformed_window_raises :
  (reachable (settings zero_interval) /\
   photo_loop zero_interval = (Raise ZeroDivisionError, next_question zero_interval)) /\
  (reachable (settings bad_start) /\
   photo_loop bad_start = (Raise ValueError, next_question bad_start)) /\
  (reachable (settings bad_end) /\
   photo_loop bad_end = (Raise ValueError, next_question bad_end)) /\
  (forall w (before after : list window) (x : window),
     channel_set w ->
     resolve_all (guilds w) (dict_get (settings w) "channel_name") <> [] ->
     special_windows w = VList (before ++ x :: after) ->
     Forall (fun y => misses y (tick_time w)) before ->
     (bounds x = None ->
      photo_loop w = (Raise ValueError, next_question w)) /\
     (contains x (tick_time w) -> interval x = 0 ->
      photo_loop w = (Raise ZeroDivisionError, next_question w))) /\
  (forall w,
     reachable (settings w) ->
     (forall ws, special_windows w = VList ws -> Forall well_formed ws) ->
     forall e w', photo_loop w = (Raise e, w') -> decision_error e = false).
Proof.
  assert (forall cs now gs, reachable (settings (session cs now gs))) as Hreach.
  { intros cs now gs. exists cs, (fresh now gs). split; [discriminate | reflexivity]. }
  split; [split; [apply Hreach | vm_compute; reflexivity]|].
  split; [split; [apply Hreach | vm_compute; reflexivity]|].
  split; [split; [apply Hreach | vm_compute; reflexivity]|].
  split.
  - intros w before after x Hset Hch Hws Hbefore.
    rewrite photo_loop_channel_set by exact Hset.
    split; [intros Hb | intros Hin Hi].
    + rewrite (guild_loop_raises _ _ (before ++ x :: after) ValueError).
      * destruct (resolve_all _ _); [contradiction | reflexivity].
      * exact Hws.
      * intros ch. rewrite window_loop_misses by exact Hbefore.
        apply window_loop_unparseable, Hb.
    + rewrite (guild_loop_raises _ _ (before ++ x :: after) ZeroDivisionError).
      * destruct (resolve_all _ _); [contradiction | reflexivity].
      * exact Hws.
      * intros ch. rewrite window_loop_misses by exact Hbefore.
        apply window_loop_zero; assumption.
  - intros w Hr Hwf e w' Hrun.
    apply reachable_typed in Hr as [[ws Hws] (n & Hn1 & Hn)].
    assert (special_windows w = VList ws) as Hws'
      by (unfold special_windows, dict_get_default; rewrite Hws; reflexivity).
    assert (interval_minutes w = VInt n) as Hn'
      by (unfold interval_minutes, dict_get_default; rewrite Hn; reflexivity).
    destruct (truthy (dict_get (settings w) "channel_name")) eqn:Hset.
    + rewrite photo_loop_channel_set in Hrun by exact Hset.
      destruct (well_formed_split ws (tick_time w) (Hwf ws Hws'))
        as [Hmiss | (before & x & after & -> & Hbefore & Hin & Hi)].
      * rewrite (guild_loop_normal _ _ ws n) in Hrun; try assumption; [|lia].
        apply for_each_act_raises in Hrun. exact Hrun.
      * rewrite (guild_loop_special _ _ before x after) in Hrun by assumption.
        destruct (resolve_all _ _) as [|ch chs]; [discriminate Hrun|].
        apply act_raises in Hrun. exact Hrun.
    + unfold photo_loop, bind, datetime_now, gets in Hrun.
      cbn [settings next_question] in Hrun. rewrite Hset in Hrun. discriminate Hrun.
Qed.

(** A session whose only window is well formed, with a camera that fails:
    the tick raises, and what it raises is the camera's exception. *)
Lemma malformed_window_raises_witness :
  let w := run_commands [Addwindow "10:00" "10:10" 30] broken_camera in
  photo_loop w =
    (Raise (RuntimeError "Failed to capture photo"), (photo_loop w).2) /\
  decision_error (RuntimeError "Failed to capture photo") = false.
Proof.
  intros w.
  assert (photo_loop w =
          (Raise (RuntimeError "Failed to capture photo"), (photo_loop w).2)) as Hrun
    by (vm_compute; reflexivity).
  split; [exact Hrun|].
  apply (proj2 (proj2 (proj2 (proj2 malformed_window_raises))) w) with (w' := (photo_loop w).2).
  - exists [Setchannel "cats"; Addwindow "10:00" "10:10" 30].
    eexists (mk_World ∅ Missing [mk_guild [cats]] ∅
               (fun _ => at_time 10 5 0) (fun _ => 1) (fun _ => Delivered) 0 []).
    split; [discriminate | vm_compute; reflexivity].
  - intros ws Hws. vm_compute in Hws. inversion Hws; subst.
    constructor; [|constructor].
    split; [exists (mk_time 10 0 0 0, mk_time 10 10 0 0); vm_compute; reflexivity | reflexivity].
  - exact Hrun.
Defined.

(** * More of the code *)

(** ** The tick as checks followed by actions *)

Lemma window_loop_check now ch ws w :
  window_loop now ch ws w =
  match check_windows now ws with
  | Raise e => (Raise e, w)
  | Ok None => (Ok Exhausted, w)
  | Ok (Some d) => (act d ch ;;; ret Returned) w
  end.
Proof.
  induction ws as [|x ws IH]; [reflexivity|].
  cbn [window_loop check_windows]. unfold bind at 1. unfold lift at 1.
  destruct (strptime_time (start x)) as [s|e]; [|reflexivity].
  unfold bind at 1. unfold lift at 1.
  destruct (strptime_time (end_ x)) as [e|e']; [|reflexivity].
  destruct (between s (time_of now) e); [|exact IH].
  unfold bind at 1. unfold lift at 1.
  destruct (py_mod (second (time_of now)) (interval x)) as [r|e']; [|reflexivity].
  destruct (r =? 0); reflexivity.
Qed.

Lemma normal_check_interval now ch w :
  normal_check now ch w =
  match check_interval now (interval_minutes w) with
  | Raise e => (Raise e, w)
  | Ok d => act d ch w
  end.
Proof.
  unfold normal_check, check_interval. unfold bind at 1. unfold gets.
  fold (interval_minutes w). unfold bind at 1. unfold lift.
  destruct (py_mod_value _ _) as [r|e]; [|reflexivity].
  destruct (_ && _); reflexivity.
Qed.

(** The loop over the guilds makes the checks once: every guild that has
    the channel meets the same verdict. *)
Lemma guild_loop_evaluate now channel_name gs w :
  guild_loop now channel_name gs w =
  enact (evaluate (settings w) now) (resolve_all gs channel_name) w.
Proof.
  revert w. induction gs as [|g gs IH]; intros w; [reflexivity|].
  cbn [guild_loop resolve_all].
  destruct (utils_get (text_channels g) channel_name) as [ch|]; [|apply IH].
  unfold enact, evaluate.
  unfold bind at 1. unfold gets.
  unfold bind at 1. unfold lift at 1.
  destruct (iterate _) as [ws|e] eqn:Hit; [|reflexivity].
  unfold bind at 1. rewrite window_loop_check.
  destruct (check_windows now ws) as [[d|]|e] eqn:Hws; [| |reflexivity].
  - unfold bind. destruct (act d ch w) as [[[]|e] w']; reflexivity.
  - unfold bind at 1. rewrite normal_check_interval. unfold interval_minutes.
    destruct (check_interval now _) as [d|e] eqn:Hd; [|reflexivity].
    cbn [for_each]. unfold bind at 1.
    pose proof (keeps_act d ch w) as Hkeep.
    destruct (act d ch w) as [[[]|e] w'] eqn:Hact; cbn [snd] in Hkeep; [|reflexivity].
    rewrite IH. unfold enact, evaluate. rewrite Hkeep, Hit, Hws, Hd.
    destruct (resolve_all gs channel_name); reflexivity.
Qed.

(** The whole tick: the clock read, the channel name, then the checks made
    once and acted on for the channels found. *)
Lemma photo_loop_enact (w : World) :
  photo_loop w =
  if truthy (dict_get (settings w) "channel_name")
  then enact (evaluate (settings w) (clock w (asked w)))
             (resolve_all (guilds w) (dict_get (settings w) "channel_name"))
             (next_question w)
  else (Ok tt, next_question w).
Proof.
  unfold photo_loop, bind, datetime_now, gets. cbn [settings guilds next_question].
  destruct (truthy _); [|reflexivity]. cbn [negb].
  rewrite guild_loop_evaluate. reflexivity.
Qed.

(** X1: a tick is its checks followed by its actions.  [photo_loop] reads
    the clock; with no channel set it stops there; otherwise the windows and
    the normal interval are checked against that one clock reading and the
    settings, and the outcome is the same for every guild: an exception of
    a check is raised at the first guild that has the channel, the decision
    of a window is acted on for that guild alone, the decision of the
    normal interval for every guild that has the channel.  Nothing is
    carried over from one tick to the next. *)
Theorem tick_is_checks_then_actions (w : World) :
  photo_loop w =
  if truthy (dict_get (settings w) "channel_name")
  then
    match resolve_all (guilds w) (dict_get (settings w) "channel_name") with
    | [] => (Ok tt, next_question w)
    | ch :: chs =>
      match evaluate (settings w) (clock w (asked w)) with
      | Raise e => (Raise e, next_question w)
      | Ok (ByWindow d) => act d ch (next_question w)
      | Ok (ByInterval d) => for_each (act d) (ch :: chs) (next_question w)
      end
    end
  else (Ok tt, next_question w).
Proof.
  rewrite photo_loop_enact. destruct (truthy _); [|reflexivity].
  unfold enact. destruct (resolve_all _ _); [reflexivity|].
  destruct (evaluate _ _) as [[d|d]|e]; reflexivity.
Qed.

(** X2: an exception of the checks ([ValueError], [ZeroDivisionError],
    [TypeError]) leaves the tick before anything is done: when [photo_loop]
    raises one, the world is as it was but for the clock read: no photo
    was taken, nothing was sent, no file was touched, also when several
    guilds have the channel.  The exception is the one the checks give on
    the settings and the time. *)
Theorem check_errors_come_first (w w' : World) (e : exn) :
  photo_loop w = (Raise e, w') ->
  decision_error e = true ->
  w' = next_question w /\
  evaluate (settings w) (clock w (asked w)) = Raise e.
Proof.
  intros Hrun He. rewrite photo_loop_enact in Hrun.
  destruct (truthy _); [|discriminate Hrun].
  unfold enact in Hrun. destruct (resolve_all _ _) as [|ch chs]; [discriminate Hrun|].
  destruct (evaluate _ _) as [[d|d]|e0].
  - apply act_raises in Hrun. congruence.
  - apply for_each_act_raises in Hrun. congruence.
  - inversion Hrun; subst. auto.
Qed.

(** The session with a window of interval 0, in two guilds. *)
Lemma check_errors_come_first_witness :
  let w := session [Setchannel "cats"; Addwindow "16:30" "16:35" 0]
                   (at_time 16 32 30)
                   [mk_guild [cats]; mk_guild [cats_elsewhere]] in
  (photo_loop w).2 = next_question w /\
  evaluate (settings w) (clock w (asked w)) = Raise ZeroDivisionError.
Proof.
  intros w.
  apply (check_errors_come_first w (photo_loop w).2 ZeroDivisionError).
  - vm_compute. reflexivity.
  - reflexivity.
Defined.

(** ** How much a tick does *)

Lemma captures_app (a b : list event) :
  captures (a ++ b) = (captures a + captures b)%nat.
Proof. unfold captures. rewrite List.filter_app, List.length_app. reflexivity. Qed.

Lemma deliveries_app (a b : list event) :
  deliveries (a ++ b) = (deliveries a + deliveries b)%nat.
Proof. unfold deliveries. rewrite List.filter_app, List.length_app. reflexivity. Qed.

(** Acting on a decision takes at most one photo, and sends at most what
    it took. *)
Lemma act_events (d : decision) (ch : channel) (w : World) :
  exists new,
    new_events w (act d ch w).2 new /\
    (captures new <= 1)%nat /\ (deliveries new <= captures new)%nat.
Proof.
  unfold new_events. destruct d as [|m].
  - exists []. cbn. rewrite app_nil_r. split; [reflexivity | split; lia].
  - unfold act, on_fire, take_photo, upload_photo, bind, datetime_now,
      libcamera_still, open_rb, channel_send, gets, os_remove, raise, ret.
    cbn [camera asked next_question with_disk log disk events settings transport].
    set (f := label m +:+ "_" +:+ strftime (clock w (asked w)) +:+ ".jpg").
    set (c := camera w (S (asked w))).
    destruct (c =? 0); cbn [negb].
    + destruct (decide _).
      * destruct (send_error _) as [err|].
        -- exists [Captured f c; SendFailed ch f err]. cbn.
           rewrite <- app_assoc. split; [reflexivity | split; lia].
        -- cbn [settings log next_question with_disk disk events].
           destruct (truthy _).
           ++ cbn [disk log next_question with_disk].
              destruct (decide _).
              ** exists [Captured f c; Sent ch f; Removed f]. cbn.
                 rewrite <- !app_assoc. split; [reflexivity | split; lia].
              ** exists [Captured f c; Sent ch f]. cbn.
                 rewrite <- !app_assoc. split; [reflexivity | split; lia].
           ++ exists [Captured f c; Sent ch f]. cbn.
              rewrite <- !app_assoc. split; [reflexivity | split; lia].
      * exists [Captured f c]. cbn. split; [reflexivity | split; lia].
    + exists [Captured f c]. cbn. split; [reflexivity | split; lia].
Qed.

Lemma for_each_act_events (d : decision) (chs : list channel) (w : World) :
  exists new,
    new_events w (for_each (act d) chs w).2 new /\
    (captures new <= length chs)%nat /\ (deliveries new <= captures new)%nat.
Proof.
  revert w. induction chs as [|ch chs IH]; intros w.
  - exists []. unfold new_events. cbn. rewrite app_nil_r. split; [reflexivity | split; lia].
  - cbn [for_each]. unfold bind.
    destruct (act_events d ch w) as (new1 & Hev1 & Hc1 & Hd1).
    destruct (act d ch w) as [[[]|e] w1]; cbn [snd] in *.
    + destruct (IH w1) as (new2 & Hev2 & Hc2 & Hd2).
      exists (new1 ++ new2)%list. unfold new_events in *.
      rewrite Hev2, Hev1, <- app_assoc, captures_app, deliveries_app.
      cbn [length]. split; [reflexivity | split; lia].
    + exists new1. cbn [length]. split; [exact Hev1 | split; lia].
Qed.

(** X3: a tick takes at most one photo for each guild that has the channel,
    and never sends more than it took; when a window decides the tick, it
    takes at most one photo and sends at most one, however many guilds have
    the channel. *)
Theorem tick_effort_bounds (w : World) :
  exists new,
    new_events w (photo_loop w).2 new /\
    (captures new <=
       length (resolve_all (guilds w) (dict_get (settings w) "channel_name")))%nat /\
    (deliveries new <= captures new)%nat /\
    (forall d, evaluate (settings w) (clock w (asked w)) = Ok (ByWindow d) ->
               (captures new <= 1)%nat /\ (deliveries new <= 1)%nat).
Proof.
  rewrite photo_loop_enact.
  assert (new_events w (next_question w) []) as Hnone
    by (unfold new_events; cbn; rewrite app_nil_r; reflexivity).
  assert (forall n, exists new,
            new_events w (next_question w) new /\
            (captures new <= n)%nat /\ (deliveries new <= captures new)%nat /\
            (forall d : decision, evaluate (settings w) (clock w (asked w)) = Ok (ByWindow d) ->
               (captures new <= 1)%nat /\ (deliveries new <= 1)%nat)) as Hquiet.
  { intros n. exists []. cbn. split; [exact Hnone|]. repeat split; lia. }
  destruct (truthy _); [|apply Hquiet].
  unfold enact.
  destruct (resolve_all _ _) as [|ch chs] eqn:Hchs; [apply Hquiet|].
  destruct (evaluate _ _) as [[d|d]|e] eqn:Hev.
  - destruct (act_events d ch (next_question w)) as (new & Hnew & Hc & Hd).
    exists new. cbn [length]. split; [exact Hnew|].
    split; [lia|]. split; [exact Hd|]. intros _ _. split; lia.
  - destruct (for_each_act_events d (ch :: chs) (next_question w))
      as (new & Hnew & Hc & Hd).
    exists new. split; [exact Hnew|]. split; [exact Hc|]. split; [exact Hd|].
    intros d' Hd'. discriminate Hd'.
  - destruct (Hquiet (length (ch :: chs))) as (new & H1 & H2 & H3 & _).
    exists new. split; [exact H1|]. split; [exact H2|]. split; [exact H3|].
    intros d' Hd'. discriminate Hd'.
Qed.

(** Overlapping windows at 16:35:07 and two guilds with the channel: one
    photo, one send. *)
Lemma tick_effort_bounds_witness :
  let w := session afternoon (at_time 16 35 7)
                   [mk_guild [cats]; mk_guild [cats_elsewhere]] in
  exists new,
    new_events w (photo_loop w).2 new /\
    (captures new <= 1)%nat /\ (deliveries new <= 1)%nat.
Proof.
  intros w. destruct (tick_effort_bounds w) as (new & Hnew & _ & _ & Hwin).
  exists new. split; [exact Hnew|].
  apply (Hwin (Fire Special)). vm_compute. reflexivity.
Defined.

(** With a camera and a transport that work, a fire takes one photo and
    sends it. *)
Lemma on_fire_works (m : mode) (ch : channel) (w : World) :
  camera w (S (asked w)) = 0 ->
  transport w (S (S (asked w))) = Delivered ->
  exists w' new,
    on_fire m ch w = (Ok tt, w') /\
    new_events w w' new /\ captures new = 1%nat /\ deliveries new = 1%nat /\
    settings w' = settings w /\ camera w' = camera w /\
    transport w' = transport w.
Proof.
  intros Hcam Hsend.
  unfold new_events, on_fire, take_photo, upload_photo, bind, datetime_now,
    libcamera_still, open_rb, channel_send, gets, os_remove, raise, ret.
  cbn [camera asked next_question with_disk log disk events settings transport].
  rewrite Hcam. cbn [Z.eqb negb].
  set (f := label m +:+ "_" +:+ strftime (clock w (asked w)) +:+ ".jpg").
  assert (f ∈ ({[f]} ∪ disk w : gset string)) as Hin
    by (apply elem_of_union; left; apply elem_of_singleton; reflexivity).
  rewrite decide_True by exact Hin.
  cbn [camera asked next_question with_disk log disk events settings transport].
  rewrite Hsend. cbn [send_error].
  cbn [camera asked next_question with_disk log disk events settings transport].
  destruct (truthy _).
  - cbn [camera asked next_question with_disk log disk events settings transport].
    rewrite decide_True by exact Hin.
    eexists. exists [Captured f 0; Sent ch f; Removed f].
    split; [reflexivity|]. cbn. rewrite <- !app_assoc. repeat split.
  - eexists. exists [Captured f 0; Sent ch f].
    split; [reflexivity|]. cbn. rewrite <- !app_assoc. repeat split.
Qed.

Lemma for_each_fire_works (m : mode) (chs : list channel) (w : World) :
  (forall k, camera w k = 0) ->
  (forall k, transport w k = Delivered) ->
  exists w' new,
    for_each (act (Fire m)) chs w = (Ok tt, w') /\
    new_events w w' new /\
    captures new = length chs /\ deliveries new = length chs.
Proof.
  revert w. induction chs as [|ch chs IH]; intros w Hcam Hsend.
  - exists w, []. unfold new_events. cbn. rewrite app_nil_r. repeat split.
  - cbn [for_each act]. unfold bind.
    destruct (on_fire_works m ch w (Hcam _) (Hsend _))
      as (w1 & new1 & Hrun & Hev1 & Hc1 & Hd1 & _ & Hcam1 & Hsend1).
    rewrite Hrun.
    destruct (IH w1) as (w2 & new2 & Hrun2 & Hev2 & Hc2 & Hd2).
    + intros k. rewrite Hcam1. apply Hcam.
    + intros k. rewrite Hsend1. apply Hsend.
    + exists w2, (new1 ++ new2)%list. unfold new_events in *.
      rewrite Hrun2, Hev2, Hev1, <- app_assoc, captures_app, deliveries_app.
      cbn [length]. repeat split; lia.
Qed.

(** X4: when the normal interval fires (no window contains the time, the
    minute is a multiple of the interval, the second is 0) and the camera
    and the transport work, the tick returns normally having taken one
    photo and sent one for every guild that has the channel: as many
    photos as such guilds. *)
Theorem normal_fire_counts_guilds (w : World) (ws : list window) (n : Z) :
  channel_set w ->
  special_windows w = VList ws ->
  Forall (fun y => misses y (tick_time w)) ws ->
  interval_minutes w = VInt n ->
  n <> 0 ->
  minute (tick_time w) mod n = 0 ->
  second (tick_time w) = 0 ->
  (forall k, camera w k = 0) ->
  (forall k, transport w k = Delivered) ->
  exists w' new,
    photo_loop w = (Ok tt, w') /\
    new_events w w' new /\
    captures new =
      length (resolve_all (guilds w) (dict_get (settings w) "channel_name")) /\
    deliveries new =
      length (resolve_all (guilds w) (dict_get (settings w) "channel_name")).
Proof.
  intros Hset Hws Hmiss Hn Hn0 Hmin Hsec Hcam Hsend.
  rewrite photo_loop_channel_set by exact Hset.
  rewrite (guild_loop_normal _ _ ws n) by assumption.
  fold (tick_time w). rewrite Hmin, Hsec. cbn [Z.eqb andb].
  destruct (for_each_fire_works Normal
              (resolve_all (guilds w) (dict_get (settings w) "channel_name"))
              (next_question w) Hcam Hsend)
    as (w' & new & Hrun & Hev & Hc & Hd).
  exists w', new. repeat split; assumption.
Qed.

(** Three guilds, two of them with a channel named cats, at 10:05:00. *)
Lemma normal_fire_counts_guilds_witness :
  let w := session [Setchannel "cats"] (at_time 10 5 0)
                   [mk_guild [dogs; cats]; mk_guild [dogs]; mk_guild [cats_elsewhere]] in
  exists w' new,
    photo_loop w = (Ok tt, w') /\
    new_events w w' new /\
    captures new = 2%nat /\ deliveries new = 2%nat.
Proof.
  intros w.
  apply (normal_fire_counts_guilds w [] 5).
  - vm_compute. reflexivity.
  - vm_compute. reflexivity.
  - constructor.
  - vm_compute. reflexivity.
  - discriminate.
  - reflexivity.
  - reflexivity.
  - intros k. reflexivity.
  - intros k. reflexivity.
Defined.

(** ** Ticks that check nothing *)

Lemma utils_get_none (chs : list channel) (v : value) :
  (forall ch, In ch chs -> v <> VStr (name ch)) -> utils_get chs v = None.
Proof.
  intros Hno. unfold utils_get. induction chs as [|c chs IH]; [reflexivity|].
  cbn [find]. destruct v as [| | |s|]; try (apply IH; intros; discriminate).
  destruct (String.eqb_spec (name c) s) as [Heq|_].
  - destruct (Hno c (or_introl eq_refl)). rewrite Heq. reflexivity.
  - apply IH. intros ch Hin. apply Hno. right. exact Hin.
Qed.

Lemma resolve_all_none (gs : list guild) (v : value) :
  (forall g ch, In g gs -> In ch (text_channels g) -> v <> VStr (name ch)) ->
  resolve_all gs v = [].
Proof.
  intros Hno. induction gs as [|g gs IH]; [reflexivity|]. cbn [resolve_all].
  rewrite utils_get_none.
  - apply IH. intros g' ch Hg. apply Hno. right. exact Hg.
  - intros ch. apply Hno. left. reflexivity.
Qed.

(** X5: when no text channel of any joined guild bears the configured name
    (no guild, no such channel, or a channel name that is not a string),
    the tick returns normally after the clock read and checks nothing: the
    windows are not parsed and the normal interval is not read, so settings
    that would make the checks raise go unnoticed. *)
Theorem unresolved_channel_skips_checks (w : World) :
  (forall g ch, In g (guilds w) -> In ch (text_channels g) ->
                dict_get (settings w) "channel_name" <> VStr (name ch)) ->
  photo_loop w = (Ok tt, next_question w).
Proof.
  intros Hno. apply photo_loop_unresolved, resolve_all_none, Hno.
Qed.

(** A window whose start is not a time of day, in a guild without a channel
    named cats. *)
Lemma unresolved_channel_skips_checks_witness :
  let w := session [Setchannel "cats"; Addwindow "4pm" "17:00" 30]
                   (at_time 10 5 0) [mk_guild [dogs]] in
  evaluate (settings w) (clock w (asked w)) = Raise ValueError /\
  photo_loop w = (Ok tt, next_question w).
Proof.
  intros w. split; [vm_compute; reflexivity|].
  apply (unresolved_channel_skips_checks w).
  intros g ch Hg Hch. vm_compute in Hg. destruct Hg as [<-|[]].
  vm_compute in Hch. destruct Hch as [<-|[]]. vm_compute. discriminate.
Defined.

(** ** Which window made the tick raise *)

Lemma check_windows_raises now ws e :
  check_windows now ws = Raise e ->
  (e = ValueError /\ exists x, In x ws /\ bounds x = None) \/
  (e = ZeroDivisionError /\
   exists x, In x ws /\ interval x = 0 /\ contains x (time_of now)).
Proof.
  induction ws as [|x ws IH]; [discriminate|]. cbn [check_windows].
  unfold strptime_time, py_mod.
  destruct (strptime_HM (start x)) as [s|] eqn:Hs.
  2:{ intros H; inversion H. left. split; [reflexivity|].
      exists x. split; [left; reflexivity|]. unfold bounds. rewrite Hs. reflexivity. }
  destruct (strptime_HM (end_ x)) as [t|] eqn:He.
  2:{ intros H; inversion H. left. split; [reflexivity|].
      exists x. split; [left; reflexivity|]. unfold bounds. rewrite Hs, He. reflexivity. }
  destruct (between s (time_of now) t) eqn:Hin.
  - destruct (Z.eqb_spec (interval x) 0) as [Hi|_]; [|discriminate].
    intros H; inversion H. right. split; [reflexivity|].
    exists x. split; [left; reflexivity|]. split; [exact Hi|].
    exists s, t. split; [|exact Hin]. unfold bounds. rewrite Hs, He. reflexivity.
  - intros H. destruct (IH H) as [(-> & y & Hy & Hb) | (-> & y & Hy & Hi & Hc)].
    + left. split; [reflexivity|]. exists y. split; [right; exact Hy | exact Hb].
    + right. split; [reflexivity|]. exists y. split; [right; exact Hy | auto].
Qed.

(** X6: after any session of commands, a tick that raises an exception of
    the checks points at a stored window: [ValueError] means some stored
    window has a start or an end that is not HH:MM, [ZeroDivisionError]
    means some stored window has interval 0 and contains the time of the
    tick.  The checks never raise [TypeError] there, and the normal
    interval, which [setinterval] keeps at 1 or more, never raises. *)
Theorem check_error_names_a_window (w w' : World) (ws : list window) (e : exn) :
  reachable (settings w) ->
  special_windows w = VList ws ->
  photo_loop w = (Raise e, w') ->
  decision_error e = true ->
  (e = ValueError /\ exists x, In x ws /\ bounds x = None) \/
  (e = ZeroDivisionError /\
   exists x, In x ws /\ interval x = 0 /\ contains x (tick_time w)).
Proof.
  intros Hr Hws Hrun He.
  apply reachable_typed in Hr as [_ (n & Hn1 & Hn)].
  rewrite photo_loop_enact in Hrun.
  destruct (truthy _); [|discriminate Hrun].
  unfold enact in Hrun. destruct (resolve_all _ _) as [|ch chs]; [discriminate Hrun|].
  unfold evaluate in Hrun. fold (special_windows w) in Hrun. rewrite Hws in Hrun.
  cbn [iterate] in Hrun.
  destruct (check_windows _ ws) as [[d|]|e0] eqn:Hcheck.
  - apply act_raises in Hrun. congruence.
  - unfold dict_get_default in Hrun. rewrite Hn in Hrun.
    unfold check_interval in Hrun. cbn [default id py_mod_value] in Hrun.
    unfold py_mod in Hrun.
    destruct (Z.eqb_spec n 0); [lia|].
    apply for_each_act_raises in Hrun. congruence.
  - inversion Hrun; subst. apply check_windows_raises in Hcheck. exact Hcheck.
Qed.

Lemma check_error_names_a_window_witness :
  (ZeroDivisionError = ValueError /\
   exists x, In x [mk_window "16:30" "16:35" 0] /\ bounds x = None) \/
  (ZeroDivisionError = ZeroDivisionError /\
   exists x, In x [mk_window "16:30" "16:35" 0] /\ interval x = 0 /\
             contains x (tick_time zero_interval)).
Proof.
  apply (check_error_names_a_window zero_interval (next_question zero_interval)).
  - exists [Setchannel "cats"; Addwindow "16:30" "16:35" 0],
           (fresh (at_time 16 32 30) [mk_guild [cats]]).
    split; [discriminate | reflexivity].
  - vm_compute. reflexivity.
  - vm_compute. reflexivity.
  - reflexivity.
Defined.

(** ** Commands and the next tick *)

(** The settings after a save of one key. *)
Lemma save_one_lookup (k : string) (v : value) (w : World) (key : string) :
  v <> VNone ->
  settings (save_settings {[k := v]} w).2 !! key =
  if decide (k = key) then Some v else settings w !! key.
Proof.
  intros Hv. rewrite save_settings_run.
  cbn [snd settings with_settings with_settings_file].
  apply lookup_updated_singleton, Hv.
Qed.

(** Windows behind a window that decides, or raises, are not checked. *)
Lemma check_windows_app now ws more :
  check_windows now ws <> Ok None ->
  check_windows now (ws ++ more) = check_windows now ws.
Proof.
  induction ws as [|x ws IH]; [intros H; destruct H; reflexivity|].
  rewrite <- app_comm_cons. cbn [check_windows].
  destruct (strptime_time (start x)); [|reflexivity].
  destruct (strptime_time (end_ x)); [|reflexivity].
  destruct (between _ _ _); [reflexivity | exact IH].
Qed.

Lemma add_window_settings (w : World) (ws : list window) (s e : string) (i : Z) (key : string) :
  special_windows w = VList ws ->
  settings (add_window s e i w).2 !! key =
  if decide ("special_windows" = key)
  then Some (VList (ws ++ [mk_window s e i]))
  else settings w !! key.
Proof.
  intros Hws. unfold add_window. unfold bind at 1. unfold gets.
  fold (special_windows w). rewrite Hws. unfold bind.
  pose proof (save_one_lookup "special_windows"
                (VList (ws ++ [mk_window s e i])) w key) as H.
  destruct (save_settings _ w) as [[[]|x] w1]; cbn [snd ret] in *;
    apply H; discriminate.
Qed.

(** X7: [addwindow] puts the new window behind the stored ones, in the
    order of the commands, and touches no other setting; so at any time at
    which a stored window already decides the tick (or makes its check
    raise), the checks come out after the command as they did before: a
    new window never takes precedence over an older one. *)
Theorem add_window_has_lowest_priority
    (w : World) (ws : list window) (s e : string) (i : Z) (now : datetime) :
  special_windows w = VList ws ->
  let w2 := (add_window s e i w).2 in
  special_windows w2 = VList (ws ++ [mk_window s e i]) /\
  interval_minutes w2 = interval_minutes w /\
  dict_get (settings w2) "channel_name" = dict_get (settings w) "channel_name" /\
  (check_windows now ws <> Ok None ->
   evaluate (settings w2) now = evaluate (settings w) now).
Proof.
  intros Hws w2.
  assert (special_windows w2 = VList (ws ++ [mk_window s e i])) as Hws2.
  { unfold special_windows, dict_get_default, w2.
    rewrite (add_window_settings w ws) by exact Hws.
    rewrite decide_True by reflexivity. reflexivity. }
  assert (interval_minutes w2 = interval_minutes w) as Hn2.
  { unfold interval_minutes, dict_get_default, w2.
    rewrite (add_window_settings w ws) by exact Hws.
    rewrite decide_False by discriminate. reflexivity. }
  split; [exact Hws2|]. split; [exact Hn2|]. split.
  - unfold dict_get, w2. rewrite (add_window_settings w ws) by exact Hws.
    rewrite decide_False by discriminate. reflexivity.
  - intros Hdecided. unfold evaluate.
    fold (special_windows w2) (special_windows w)
         (interval_minutes w2) (interval_minutes w).
    rewrite Hws2, Hws, Hn2. cbn [iterate].
    rewrite check_windows_app by exact Hdecided. reflexivity.
Qed.

(** The window 16:30-16:35 every 30 s decides at 16:32:15 (nothing is
    done); adding a window for the whole day every second changes nothing
    about that tick. *)
Lemma add_window_has_lowest_priority_witness :
  let w := session [Setchannel "cats"; Addwindow "16:30" "16:35" 30]
                   (at_time 16 32 15) [mk_guild [cats]] in
  let w2 := (add_window "00:00" "23:59" 1 w).2 in
  evaluate (settings w2) (at_time 16 32 15) = Ok (ByWindow NoAction).
Proof.
  intros w w2.
  destruct (add_window_has_lowest_priority w [mk_window "16:30" "16:35" 30]
              "00:00" "23:59" 1 (at_time 16 32 15))
    as (_ & _ & _ & H).
  - vm_compute. reflexivity.
  - unfold w2. rewrite H.
    + vm_compute. reflexivity.
    + vm_compute. discriminate.
Defined.

(** X8: [clearwindows] puts an end to the exceptions of the checks: with a
    normal interval that is a number other than 0, whatever windows were
    stored, after the command every tick is decided by the normal interval
    alone, and whatever it raises comes from the camera or the
    transport. *)
Theorem clear_windows_ends_check_errors (w : World) (n : Z) :
  interval_minutes w = VInt n ->
  n <> 0 ->
  let w2 := (clear_windows w).2 in
  special_windows w2 = VList [] /\
  (forall now,
     evaluate (settings w2) now =
     Ok (ByInterval (if (minute (time_of now) mod n =? 0) &&
                        (second (time_of now) =? 0)
                     then Fire Normal else NoAction))) /\
  (forall e w', photo_loop w2 = (Raise e, w') -> decision_error e = false).
Proof.
  intros Hn Hn0 w2.
  assert (forall key,
            settings w2 !! key =
            if decide ("special_windows" = key) then Some (VList [])
            else settings w !! key) as Hlook.
  { intros key. unfold w2, clear_windows, bind.
    pose proof (save_one_lookup "special_windows" (VList []) w key) as H.
    destruct (save_settings _ w) as [[[]|x] w1]; cbn [snd ret] in *;
      apply H; discriminate. }
  assert (special_windows w2 = VList []) as Hws2.
  { unfold special_windows, dict_get_default. rewrite Hlook.
    rewrite decide_True by reflexivity. reflexivity. }
  assert (interval_minutes w2 = VInt n) as Hn2.
  { unfold interval_minutes, dict_get_default. rewrite Hlook.
    rewrite decide_False by discriminate. exact Hn. }
  assert (forall now,
     evaluate (settings w2) now =
     Ok (ByInterval (if (minute (time_of now) mod n =? 0) &&
                        (second (time_of now) =? 0)
                     then Fire Normal else NoAction))) as Hev.
  { intros now. unfold evaluate.
    fold (special_windows w2) (interval_minutes w2). rewrite Hws2, Hn2.
    cbn [iterate check_windows]. unfold check_interval.
    cbn [py_mod_value]. unfold py_mod.
    destruct (Z.eqb_spec n 0); [contradiction | reflexivity]. }
  split; [exact Hws2|]. split; [exact Hev|].
  intros e w' Hrun. rewrite photo_loop_enact in Hrun.
  destruct (truthy _); [|discriminate Hrun].
  unfold enact in Hrun. destruct (resolve_all _ _); [discriminate Hrun|].
  rewrite Hev in Hrun. apply for_each_act_raises in Hrun. exact Hrun.
Qed.

(** The session whose tick raises [ZeroDivisionError], after
    [$clearwindows]. *)
Lemma clear_windows_ends_check_errors_witness :
  photo_loop zero_interval = (Raise ZeroDivisionError, next_question zero_interval) /\
  photo_loop (clear_windows zero_interval).2 =
    (Ok tt, next_question (clear_windows zero_interval).2).
Proof.
  split; [vm_compute; reflexivity|].
  destruct (clear_windows_ends_check_errors zero_interval 5) as (_ & Hev & _).
  - vm_compute. reflexivity.
  - discriminate.
  - rewrite photo_loop_enact, Hev. vm_compute. reflexivity.
Defined.

(** ** Who changes what *)

Ltac frame :=
  cbn [fst snd settings settings_file guilds disk events asked clock camera
       transport log with_disk with_settings with_settings_file next_question];
  repeat split.

Lemma keeps_config_bind {A B} (m : M A) (k : A -> M B) :
  keeps_config m -> (forall a, keeps_config (k a)) -> keeps_config (bind m k).
Proof.
  intros Hm Hk w. unfold bind. specialize (Hm w).
  destruct (m w) as [[a|e] w1]; cbn [snd] in *; [|exact Hm].
  specialize (Hk a w1). destruct Hm as (M1 & M2 & M3 & M4 & M5 & M6).
  destruct Hk as (K1 & K2 & K3 & K4 & K5 & K6). repeat split; congruence.
Qed.

Lemma keeps_config_pure {A} (r : World -> result A) :
  keeps_config (fun w => (r w, w)).
Proof. intros w. frame. Qed.

Lemma keeps_config_take_photo p : keeps_config (take_photo p).
Proof.
  unfold take_photo. apply keeps_config_bind; [intros w; frame|].
  intros d. apply keeps_config_bind; [intros w; frame|].
  intros c. destruct (negb _); apply keeps_config_pure.
Qed.

Lemma keeps_config_open_rb f : keeps_config (open_rb f).
Proof. intros w. unfold open_rb. destruct (decide _); frame. Qed.

Lemma keeps_config_upload_photo ch f : keeps_config (upload_photo ch f).
Proof.
  unfold upload_photo. apply keeps_config_bind; [apply keeps_config_open_rb|].
  intros _. apply keeps_config_bind.
  { intros w. unfold channel_send. destruct (send_error _); frame. }
  intros _. apply keeps_config_bind; [apply keeps_config_pure|].
  intros v. destruct (truthy v); [|apply keeps_config_pure].
  intros w. unfold os_remove. destruct (decide _); frame.
Qed.

Lemma keeps_config_act d ch : keeps_config (act d ch).
Proof.
  destruct d as [|m]; [apply keeps_config_pure|].
  unfold act, on_fire. apply keeps_config_bind; [apply keeps_config_take_photo|].
  intros f. apply keeps_config_upload_photo.
Qed.

Lemma keeps_config_for_each d chs : keeps_config (for_each (act d) chs).
Proof.
  induction chs as [|ch chs IH]; [apply keeps_config_pure|].
  cbn [for_each]. apply keeps_config_bind; [apply keeps_config_act | intros _; exact IH].
Qed.

Lemma keeps_config_photo_loop : keeps_config photo_loop.
Proof.
  intros w. rewrite photo_loop_enact.
  destruct (truthy _); [|frame].
  unfold enact. destruct (resolve_all _ _) as [|ch chs]; [frame|].
  destruct (evaluate _ _) as [[d|d]|e].
  - apply (keeps_config_act d ch (next_question w)).
  - apply (keeps_config_for_each d (ch :: chs) (next_question w)).
  - frame.
Qed.

Lemma keeps_config_snap g : keeps_config (snap g).
Proof.
  unfold snap. apply keeps_config_bind; [apply keeps_config_pure|].
  intros v. destruct (negb _); [apply keeps_config_pure|].
  destruct g as [g|]; [|apply keeps_config_pure].
  apply keeps_config_bind; [apply keeps_config_take_photo|]. intros f.
  apply keeps_config_bind; [|intros _; apply keeps_config_pure].
  unfold upload_photo_to. destruct (utils_get _ _); [apply keeps_config_upload_photo|].
  apply keeps_config_bind; [apply keeps_config_open_rb | intros _; apply keeps_config_pure].
Qed.

(** X9: the scheduling loop and [snap] never change the configuration:
    after a tick, and after a [snap], the settings in memory, the settings
    file and the guilds are what they were, whether the call returned or
    raised.  Only the commands write settings. *)
Theorem ticks_never_change_settings (w : World) (ctx_guild : option guild) :
  (settings (photo_loop w).2 = settings w /\
   settings_file (photo_loop w).2 = settings_file w /\
   guilds (photo_loop w).2 = guilds w) /\
  (settings (snap ctx_guild w).2 = settings w /\
   settings_file (snap ctx_guild w).2 = settings_file w /\
   guilds (snap ctx_guild w).2 = guilds w).
Proof.
  destruct (keeps_config_photo_loop w) as (H1 & H2 & H3 & _).
  destruct (keeps_config_snap ctx_guild w) as (H4 & H5 & H6 & _).
  auto.
Qed.

(** [addwindow] by the value it finds under the key. *)
Lemma add_window_cases (s e : string) (i : Z) (w : World) :
  add_window s e i w =
  match special_windows w with
  | VList ws =>
    (save_settings {["special_windows" := VList (ws ++ [mk_window s e i])]} ;;;
     ret ("Special window added: " +:+ s +:+ "-" +:+ e +:+
          " every " +:+ pretty i +:+ "s.")) w
  | _ => (Raise AttributeError, w)
  end.
Proof.
  unfold add_window. unfold bind at 1. unfold gets. fold (special_windows w).
  destruct (special_windows w); reflexivity.
Qed.

Lemma keeps_outside_save kwargs : keeps_outside (save_settings kwargs).
Proof. intros w. rewrite save_settings_run. frame. Qed.

Lemma keeps_outside_save_reply kwargs (reply : string) :
  keeps_outside (save_settings kwargs ;;; ret reply).
Proof.
  intros w. unfold bind. pose proof (keeps_outside_save kwargs w) as H.
  destruct (save_settings kwargs w) as [[[]|e] w1]; exact H.
Qed.

Lemma keeps_outside_run_command c : keeps_outside (run_command c).
Proof.
  destruct c as [n|m|s e i| |v]; cbn [run_command].
  - unfold set_channel. apply keeps_outside_save_reply.
  - unfold set_interval. destruct (m <? 1); [intros w; frame|].
    apply keeps_outside_save_reply.
  - intros w. rewrite add_window_cases.
    destruct (special_windows w);
      [frame | frame | frame | frame | apply keeps_outside_save_reply].
  - unfold clear_windows. apply keeps_outside_save_reply.
  - unfold set_autodelete. apply keeps_outside_save_reply.
Qed.

(** X10: the commands [setchannel], [setinterval], [addwindow],
    [clearwindows] and [autodelete] touch nothing but the settings and the
    settings file: no photo is taken, nothing is sent, no photo file is
    created or removed, whether the command is accepted, refused or
    raises. *)
Theorem commands_only_write_settings (c : command) (w : World) :
  disk (run_command c w).2 = disk w /\
  events (run_command c w).2 = events w /\
  asked (run_command c w).2 = asked w /\
  guilds (run_command c w).2 = guilds w.
Proof.
  destruct (keeps_outside_run_command c w) as (H1 & H2 & H3 & H4 & _). auto.
Qed.

(** ** Restarting the bot *)

Lemma persisted_startup (w0 : World) : persisted (startup w0).
Proof.
  unfold persisted, startup, load_settings. cbn [settings_file with_settings].
  destruct (settings_file w0) eqn:Hfile;
    cbn [snd settings settings_file with_settings]; rewrite Hfile; reflexivity.
Qed.

Lemma persisted_save kwargs w : persisted (save_settings kwargs w).2.
Proof.
  rewrite save_settings_run. unfold persisted.
  cbn [snd settings settings_file with_settings with_settings_file]. reflexivity.
Qed.

Lemma persisted_save_reply kwargs (reply : string) w :
  persisted ((save_settings kwargs ;;; ret reply) w).2.
Proof.
  unfold bind. pose proof (persisted_save kwargs w) as H.
  destruct (save_settings kwargs w) as [[[]|e] w1]; exact H.
Qed.

Lemma persisted_run_command c w : persisted w -> persisted (run_command c w).2.
Proof.
  intros Hp. destruct c as [n|m|s e i| |v]; cbn [run_command].
  - unfold set_channel. apply persisted_save_reply.
  - unfold set_interval. destruct (m <? 1); [exact Hp | apply persisted_save_reply].
  - rewrite add_window_cases.
    destruct (special_windows w); try exact Hp.
    apply persisted_save_reply.
  - unfold clear_windows. apply persisted_save_reply.
  - unfold set_autodelete. apply persisted_save_reply.
Qed.

Lemma persisted_keeps_config {A} (m : M A) w :
  keeps_config m -> persisted w -> persisted (m w).2.
Proof.
  intros Hk Hp. destruct (Hk w) as (Hs & Hf & _). unfold persisted in *.
  rewrite Hs, Hf. exact Hp.
Qed.

Lemma persisted_run_steps sts w : persisted w -> persisted (run_steps sts w).
Proof.
  revert w. induction sts as [|st sts IH]; intros w Hp; [exact Hp|].
  cbn [run_steps]. apply IH. destruct st as [c|g|]; cbn [run_step].
  - apply persisted_run_command, Hp.
  - apply persisted_keeps_config; [apply keeps_config_snap | exact Hp].
  - apply persisted_keeps_config; [apply keeps_config_photo_loop | exact Hp].
Qed.

(** X11: the settings survive a restart.  Whatever the settings file held
    when the bot started, and after any sequence of commands, snaps and
    ticks (accepted or refused, returning or raising), starting the bot
    again on the world as it is loads exactly the settings it had in
    memory. *)
Theorem restart_restores_settings (w0 : World) (sts : list step) :
  let w := run_steps sts (startup w0) in
  settings (startup w) = settings w.
Proof.
  cbn zeta. pose proof (persisted_run_steps sts _ (persisted_startup w0)) as Hp.
  unfold persisted in Hp. unfold startup at 1, load_settings.
  cbn [settings_file with_settings snd settings].
  destruct (settings_file (run_steps sts (startup w0)));
    cbn [snd settings with_settings]; congruence.
Qed.

(** ** What a session keeps true of the settings *)

Lemma session_typed_default : session_typed default_settings.
Proof.
  split; [left; reflexivity|]. split; [exists 5; split; [lia | reflexivity]|].
  split; [exists false | exists []]; reflexivity.
Qed.

Lemma session_typed_save (k : string) (v : value) (w : World) :
  v <> VNone ->
  session_typed (<[k := v]> (settings w)) ->
  session_typed (settings w) ->
  session_typed (settings (save_settings {[k := v]} w).2).
Proof.
  intros Hv Hnew _. unfold session_typed in *.
  assert (forall key, settings (save_settings {[k := v]} w).2 !! key =
                      <[k := v]> (settings w) !! key) as Heq.
  { intros key. rewrite save_one_lookup by exact Hv. rewrite lookup_insert.
    reflexivity. }
  rewrite !Heq. exact Hnew.
Qed.

Lemma session_typed_save_reply (k : string) (v : value) (reply : string) (w : World) :
  v <> VNone ->
  session_typed (<[k := v]> (settings w)) ->
  session_typed (settings w) ->
  session_typed (settings ((save_settings {[k := v]} ;;; ret reply) w).2).
Proof.
  intros Hv Hnew Hold. unfold bind.
  pose proof (session_typed_save k v w Hv Hnew Hold) as H.
  destruct (save_settings _ w) as [[[]|e] w1]; exact H.
Qed.

Lemma session_typed_run_command (c : command) (w : World) :
  session_typed (settings w) -> session_typed (settings (run_command c w).2).
Proof.
  intros Ht. pose proof Ht as (Hc & Hn & Hb & Hw).
  destruct c as [n|m|s e i| |v]; cbn [run_command].
  - unfold set_channel. apply session_typed_save_reply; [discriminate| |exact Ht].
    unfold session_typed. rewrite lookup_insert_eq.
    rewrite !lookup_insert_ne by discriminate. split; [right; eauto | auto].
  - unfold set_interval. destruct (Z.ltb_spec m 1); [exact Ht|].
    apply session_typed_save_reply; [discriminate| |exact Ht].
    unfold session_typed. rewrite lookup_insert_eq.
    rewrite !lookup_insert_ne by discriminate.
    split; [exact Hc|]. split; [exists m; split; [lia | reflexivity] | auto].
  - rewrite add_window_cases. destruct (special_windows w); try exact Ht.
    apply session_typed_save_reply; [discriminate| |exact Ht].
    unfold session_typed. rewrite lookup_insert_eq.
    rewrite !lookup_insert_ne by discriminate.
    split; [exact Hc|]. split; [exact Hn|]. split; [exact Hb | eauto].
  - unfold clear_windows. apply session_typed_save_reply; [discriminate| |exact Ht].
    unfold session_typed. rewrite lookup_insert_eq.
    rewrite !lookup_insert_ne by discriminate.
    split; [exact Hc|]. split; [exact Hn|]. split; [exact Hb | eauto].
  - unfold set_autodelete. apply session_typed_save_reply; [discriminate| |exact Ht].
    unfold session_typed. rewrite lookup_insert_eq.
    rewrite !lookup_insert_ne by discriminate.
    split; [exact Hc|]. split; [exact Hn|]. split; [eauto | exact Hw].
Qed.

Lemma session_typed_run_steps (sts : list step) (w : World) :
  session_typed (settings w) -> session_typed (settings (run_steps sts w)).
Proof.
  revert w. induction sts as [|st sts IH]; intros w Ht; [exact Ht|].
  cbn [run_steps]. apply IH. destruct st as [c|g|]; cbn [run_step].
  - apply session_typed_run_command, Ht.
  - destruct (keeps_config_snap g w) as [-> _]. exact Ht.
  - destruct (keeps_config_photo_loop w) as [-> _]. exact Ht.
Qed.

(** X12: a bot started without a usable settings file keeps its settings
    well typed through any sequence of commands, snaps and ticks: the
    channel name is None or a string, the normal interval is a number of at
    least 1 (no command stores a smaller one), the delete flag is a bool,
    the windows are a list.  So in a session the normal interval check
    never divides by zero and [addwindow] always finds a list to append
    to. *)
Theorem sessions_keep_settings_typed (w0 : World) (sts : list step) :
  (forall d, settings_file w0 <> Json d) ->
  let s := settings (run_steps sts (startup w0)) in
  (s !! "channel_name" = Some VNone \/
   exists n, s !! "channel_name" = Some (VStr n)) /\
  (exists n, 1 <= n /\ s !! "interval_minutes" = Some (VInt n)) /\
  (exists b, s !! "delete_after_upload" = Some (VBool b)) /\
  (exists ws, s !! "special_windows" = Some (VList ws)).
Proof.
  intros Hfile. apply (session_typed_run_steps sts (startup w0)).
  unfold startup, load_settings. cbn [settings_file with_settings].
  destruct (settings_file w0) as [| |d] eqn:E;
    [apply session_typed_default.. | destruct (Hfile d); reflexivity].
Qed.

(** A session that tries intervals below 1 and stores windows. *)
Lemma sessions_keep_settings_typed_witness :
  let s := settings (run_steps [Command (Setchannel "cats");
                                Command (Setinterval 0);
                                Command (Setinterval (-3));
                                Tick;
                                Command (Addwindow "16:30" "16:35" 0);
                                Snap None;
                                Command (Autodelete "ON")]
                     (startup (fresh (at_time 10 5 0) [mk_guild [cats]]))) in
  exists n, 1 <= n /\ s !! "interval_minutes" = Some (VInt n).
Proof.
  intros s.
  apply (sessions_keep_settings_typed (fresh (at_time 10 5 0) [mk_guild [cats]])).
  discriminate.
Defined.

(** X13: nothing unsets a setting.  A key that holds a value other than
    None still holds a value other than None after any command, snap or
    tick: [save_settings] drops the arguments that are None instead of
    storing them, and no code removes a key.  In particular no command
    takes the bot back to the state without a channel name. *)
Theorem no_step_unsets_a_setting (st : step) (w : World) (key : string) (v : value) :
  settings w !! key = Some v ->
  v <> VNone ->
  exists v', settings (run_step st w) !! key = Some v' /\ v' <> VNone.
Proof.
  intros Hkey Hv.
  assert (forall k x (reply : string), x <> VNone ->
            exists v', settings ((save_settings {[k := x]} ;;; ret reply) w).2 !! key
                       = Some v' /\ v' <> VNone) as Hsave.
  { intros k x reply Hx. unfold bind.
    pose proof (save_one_lookup k x w key Hx) as H.
    destruct (save_settings _ w) as [[[]|e] w1]; cbn [snd ret] in *;
      rewrite H; (destruct (decide (k = key)); [exists x | exists v]; auto). }
  destruct st as [c|g|]; cbn [run_step].
  - destruct c as [n|m|s e i| |x]; cbn [run_command].
    + unfold set_channel. apply Hsave. discriminate.
    + unfold set_interval. destruct (m <? 1); [exists v; auto|].
      apply Hsave. discriminate.
    + rewrite add_window_cases.
      destruct (special_windows w); try (exists v; auto; fail).
      apply Hsave. discriminate.
    + unfold clear_windows. apply Hsave. discriminate.
    + unfold set_autodelete. apply Hsave. discriminate.
  - destruct (keeps_config_snap g w) as [-> _]. exists v. auto.
  - destruct (keeps_config_photo_loop w) as [-> _]. exists v. auto.
Qed.

(** The channel name after [$setchannel cats], through [$clearwindows]. *)
Lemma no_step_unsets_a_setting_witness :
  exists v',
    settings (run_step (Command Clearwindows)
                (session [Setchannel "cats"] (at_time 10 5 0) []))
      !! "channel_name" = Some v' /\ v' <> VNone.
Proof.
  apply (no_step_unsets_a_setting (Command Clearwindows)
           (session [Setchannel "cats"] (at_time 10 5 0) [])
           "channel_name" (VStr "cats")).
  - vm_compute. reflexivity.
  - discriminate.
Defined.

(** ** Bounds and intervals at their edges *)

Lemma is_digit_value (c : ascii) : is_digit c = true -> 0 <= digit_value c <= 9.
Proof.
  unfold is_digit, digit_value. intros H. apply andb_true_iff in H as [H1 H2].
  apply Nat.leb_le in H1, H2. lia.
Qed.

Lemma digit_upto_value (top : Z) (c : ascii) :
  digit_upto top c = true -> 0 <= digit_value c <= 9 /\ digit_value c <= top.
Proof.
  unfold digit_upto. intros H. apply andb_true_iff in H as [H1 H2].
  apply is_digit_value in H1. apply Z.leb_le in H2. lia.
Qed.

Lemma match_minute_range (s rest : string) (m : Z) :
  match_minute s = Some (m, rest) -> 0 <= m <= 59.
Proof.
  unfold match_minute. destruct s as [|c [|d s']]; [discriminate| |].
  - destruct (is_digit c) eqn:Hc; [|discriminate].
    intros H; inversion H; subst. apply is_digit_value in Hc. lia.
  - destruct (digit_upto 5 c && is_digit d) eqn:H2.
    + apply andb_true_iff in H2 as [Hc Hd].
      apply digit_upto_value in Hc. apply is_digit_value in Hd.
      intros H; inversion H; subst. lia.
    + destruct (is_digit c) eqn:Hc; [|discriminate].
      intros H; inversion H; subst. apply is_digit_value in Hc. lia.
Qed.

Lemma hour_alternatives_range (s rest : string) (h : Z) :
  In (h, rest) (hour_alternatives s) -> 0 <= h <= 23.
Proof.
  unfold hour_alternatives. destruct s as [|c [|d s']]; [intros []| |].
  - destruct (is_digit c) eqn:Hc; [|intros []].
    intros [H|[]]; inversion H; subst. apply is_digit_value in Hc. lia.
  - intros H. apply in_app_or in H as [H|H]; [|apply in_app_or in H as [H|H]].
    + destruct (Ascii.eqb c "2" && digit_upto 3 d) eqn:H2; [|destruct H].
      apply andb_true_iff in H2 as [_ Hd]. apply digit_upto_value in Hd.
      destruct H as [H|[]]; inversion H; subst. lia.
    + destruct (digit_upto 1 c && is_digit d) eqn:H2; [|destruct H].
      apply andb_true_iff in H2 as [Hc Hd].
      apply digit_upto_value in Hc. apply is_digit_value in Hd.
      destruct H as [H|[]]; inversion H; subst. lia.
    + destruct (is_digit c) eqn:Hc; [|destruct H].
      destruct H as [H|[]]; inversion H; subst. apply is_digit_value in Hc. lia.
Qed.

Lemma match_colon_minute_range (s rest : string) (m : Z) :
  match_colon_minute s = Some (m, rest) -> 0 <= m <= 59.
Proof.
  unfold match_colon_minute. destruct s as [|c s']; [discriminate|].
  destruct (Ascii.eqb_spec c ":") as [->|Hne].
  - apply match_minute_range.
  - destruct c as [[] [] [] [] [] [] [] []]; try discriminate.
    destruct Hne. reflexivity.
Qed.

Lemma first_match_range (alts : list (Z * string)) (h m : Z) (rest : string) :
  (forall h' r, In (h', r) alts -> 0 <= h' <= 23) ->
  first_match alts = Some (h, m, rest) ->
  0 <= h <= 23 /\ 0 <= m <= 59.
Proof.
  induction alts as [|[h0 r0] alts IH]; intros Hr; [discriminate|].
  cbn [first_match].
  destruct (match_colon_minute r0) as [[m1 rest1]|] eqn:Hm.
  - intros H; inversion H; subst. split.
    + apply (Hr h r0). left. reflexivity.
    + apply (match_colon_minute_range _ _ _ Hm).
  - apply IH. intros h' r Hin. apply (Hr h' r). right. exact Hin.
Qed.

(** What [strptime] accepts is a whole minute of the day. *)
Lemma strptime_HM_range (s : string) (t : time) :
  strptime_HM s = Some t ->
  0 <= hour t <= 23 /\ 0 <= minute t <= 59 /\ second t = 0 /\ microsecond t = 0.
Proof.
  unfold strptime_HM.
  destruct (first_match (hour_alternatives s)) as [[[h m] rest]|] eqn:Hfm;
    [|discriminate].
  destruct rest; [|discriminate]. intros H; inversion H; subst. cbn.
  apply first_match_range in Hfm; [|intros h' r; apply hour_alternatives_range].
  lia.
Qed.

(** X14: the bounds of a window, when they parse, are whole minutes of the
    day: hours 0 to 23, minutes 0 to 59, second 0 and microsecond 0.  So a
    window contains nothing of its end minute but its first instant, and no
    window contains a time of day after 23:59:00: for a clock time [t] in a
    window, if [t] is in the minute of the window's end then its second and
    microsecond are 0, and [t] is not later than 23:59:00.000000. *)
Theorem window_end_is_sharp (x : window) (s e t : time) :
  bounds x = Some (s, e) ->
  clock_time t ->
  contains x t ->
  (0 <= hour e <= 23 /\ 0 <= minute e <= 59 /\ second e = 0 /\ microsecond e = 0) /\
  (hour t = hour e -> minute t = minute e -> second t = 0 /\ microsecond t = 0) /\
  time_le t (mk_time 23 59 0 0) = true.
Proof.
  intros Hb (Hmin & Hsec & Hus) (s' & e' & Hb' & Hin).
  rewrite Hb in Hb'. inversion Hb'; subst s' e'.
  apply bounds_Some in Hb as [_ He]. apply strptime_HM_range in He.
  unfold between in Hin. apply andb_true_iff in Hin as [_ Hte].
  assert (time_compare t e <> Gt) as Hcmp
    by (intros H; apply time_le_false in H; congruence).
  rewrite time_compare_Gt in Hcmp.
  split; [exact He|]. split.
  - intros Hh Hm. lia.
  - destruct (time_le t (mk_time 23 59 0 0)) eqn:Hlate; [reflexivity|].
    apply time_le_false, time_compare_Gt in Hlate. cbn in Hlate. lia.
Qed.

(** The window 16:30-16:35 at 16:35:00 sharp. *)
Lemma window_end_is_sharp_witness :
  let t := mk_time 16 35 0 0 in
  (hour t = 16 -> minute t = 35 -> second t = 0 /\ microsecond t = 0) /\
  time_le t (mk_time 23 59 0 0) = true.
Proof.
  intros t.
  destruct (window_end_is_sharp (mk_window "16:30" "16:35" 30)
              (mk_time 16 30 0 0) (mk_time 16 35 0 0) t) as (_ & H1 & H2).
  - reflexivity.
  - unfold clock_time. cbn. lia.
  - exists (mk_time 16 30 0 0), (mk_time 16 35 0 0). split; reflexivity.
  - split; [exact H1 | exact H2].
Defined.

(** *** Intervals *)

Lemma mod_opp_zero (a b : Z) : (a mod (- b) =? 0) = (a mod b =? 0).
Proof.
  destruct (Z.eq_dec b 0) as [->|Hb]; [reflexivity|].
  destruct (Z.eqb_spec (a mod b) 0) as [H|H].
  - apply Z.eqb_eq. apply Z.mod_divide in H; [|exact Hb].
    apply Z.mod_divide; [lia|]. apply Z.divide_opp_l. exact H.
  - apply Z.eqb_neq. intros H'. apply H.
    apply Z.mod_divide in H'; [|lia].
    apply Z.mod_divide; [exact Hb|]. apply (proj1 (Z.divide_opp_l b a)). exact H'.
Qed.

Lemma check_windows_negated now x :
  forall before after,
    check_windows now (before ++ negated x :: after) =
    check_windows now (before ++ x :: after).
Proof.
  intros before after. induction before as [|y before IH].
  - cbn [app check_windows negated start end_ interval]. unfold py_mod.
    destruct (strptime_time (start x)); [|reflexivity].
    destruct (strptime_time (end_ x)); [|reflexivity].
    destruct (between _ _ _); [|reflexivity].
    replace (- interval x =? 0) with (interval x =? 0)
      by (destruct (Z.eqb_spec (interval x) 0), (Z.eqb_spec (- interval x) 0);
          try reflexivity; lia).
    destruct (interval x =? 0); [reflexivity|]. rewrite mod_opp_zero. reflexivity.
  - rewrite <- !app_comm_cons. cbn [check_windows]. rewrite IH. reflexivity.
Qed.

(** X15: the sign of a window's interval does not matter.  A stored window
    with a negative interval (which [addwindow] accepts) makes the loop
    over the windows behave exactly as the same window with the opposite,
    positive interval: it fires at the same seconds and never raises. *)
Theorem negative_interval_acts_as_positive
    (now : datetime) (ch : channel) (x : window) (before after : list window) (w : World) :
  window_loop now ch (before ++ negated x :: after) w =
  window_loop now ch (before ++ x :: after) w.
Proof.
  rewrite !window_loop_check, check_windows_negated. reflexivity.
Qed.

(** X16: the interval checks compare against the second and the minute of
    the clock, so an interval beyond 59 is not honoured.  A window with an
    interval of more than 59 seconds fires at second 0 of every minute it
    contains and at no other second; a normal interval of more than 59
    minutes fires at minute 0, second 0 of every hour and at no other
    time. *)
Theorem interval_beyond_59_is_every_minute (now : datetime) (ch : channel) (w : World) :
  clock_time (time_of now) ->
  (forall x rest,
     contains x (time_of now) -> 59 < interval x ->
     window_loop now ch (x :: rest) w =
     (act (if second (time_of now) =? 0 then Fire Special else NoAction) ch ;;;
      ret Returned) w) /\
  (forall n,
     interval_minutes w = VInt n -> 59 < n ->
     normal_check now ch w =
     act (if (minute (time_of now) =? 0) && (second (time_of now) =? 0)
          then Fire Normal else NoAction) ch w).
Proof.
  intros (Hmin & Hsec & _). split.
  - intros x rest Hin Hi. rewrite window_loop_hit by (assumption || lia).
    rewrite Z.mod_small by lia. reflexivity.
  - intros n Hn Hi. rewrite (normal_check_eq _ n) by (assumption || lia).
    rewrite Z.mod_small by lia. reflexivity.
Qed.

(** A window every 90 seconds: it fires at 16:31:00 and not at 16:31:30,
    ninety seconds after 16:30:00. *)
Lemma interval_beyond_59_is_every_minute_witness :
  let x := mk_window "16:30" "16:35" 90 in
  let w := fresh (at_time 16 31 30) [] in
  window_loop (at_time 16 31 0) cats [x] w = (act (Fire Special) cats ;;; ret Returned) w /\
  window_loop (at_time 16 31 30) cats [x] w = (Ok Returned, w).
Proof.
  intros x w. split.
  - apply (proj1 (interval_beyond_59_is_every_minute (at_time 16 31 0) cats w
                    ltac:(unfold clock_time; cbn; lia)) x []).
    + exists (mk_time 16 30 0 0), (mk_time 16 35 0 0). split; reflexivity.
    + reflexivity.
  - rewrite (proj1 (interval_beyond_59_is_every_minute (at_time 16 31 30) cats w
                      ltac:(unfold clock_time; cbn; lia)) x []).
    + reflexivity.
    + exists (mk_time 16 30 0 0), (mk_time 16 35 0 0). split; reflexivity.
    + reflexivity.
Defined.

(** ** Capture and delivery at their edges *)

(** X17: a failed capture sends nothing.  When the camera exits with
    another code than 0, firing raises [RuntimeError] right after the
    capture: no file appears on disk, the upload is not attempted, and the
    only thing recorded is the capture with its exit code. *)
Theorem failed_capture_skips_upload (m : mode) (ch : channel) (w : World) :
  camera w (S (asked w)) <> 0 ->
  exists w' filename,
    on_fire m ch w = (Raise (RuntimeError "Failed to capture photo"), w') /\
    disk w' = disk w /\
    new_events w w' [Captured filename (camera w (S (asked w)))] /\
    deliveries (events w') = deliveries (events w).
Proof.
  intros Hexit.
  unfold on_fire, take_photo, bind, datetime_now, libcamera_still, new_events.
  cbn [camera asked next_question].
  destruct (Z.eqb_spec (camera w (S (asked w))) 0) as [|_]; [contradiction|].
  cbn [negb raise]. do 2 eexists. split; [reflexivity|].
  cbn [disk events log with_disk next_question].
  split; [reflexivity|]. split; [reflexivity|].
  rewrite deliveries_app. cbn. lia.
Qed.

Lemma failed_capture_skips_upload_witness :
  exists w' filename,
    on_fire Normal cats (next_question broken_camera) =
      (Raise (RuntimeError "Failed to capture photo"), w') /\
    disk w' = disk (next_question broken_camera) /\
    new_events (next_question broken_camera) w' [Captured filename 1] /\
    deliveries (events w') = deliveries (events (next_question broken_camera)).
Proof.
  apply (failed_capture_skips_upload Normal cats (next_question broken_camera)).
  vm_compute. discriminate.
Defined.

(** X18: [upload_photo] at its other edges.  For a file that is not on
    disk it raises [FileNotFoundError] before anything is sent and leaves
    the world as it is.  After a delivery that succeeds with
    [delete_after_upload] false, absent or None, the file stays on disk and
    the only thing done is the send. *)
Theorem upload_missing_file_or_keep (w : World) (ch : channel) (filename : string) :
  (filename ∉ disk w ->
   upload_photo ch filename w = (Raise FileNotFoundError, w)) /\
  (filename ∈ disk w ->
   transport w (asked w) = Delivered ->
   truthy (dict_get (settings w) "delete_after_upload") = false ->
   exists w',
     upload_photo ch filename w = (Ok tt, w') /\
     disk w' = disk w /\
     new_events w w' [Sent ch filename]).
Proof.
  split.
  - intros Hout. unfold upload_photo, bind, open_rb.
    rewrite decide_False by exact Hout. reflexivity.
  - intros Hin Hsend Hflag. eexists.
    unfold upload_photo, bind, open_rb, channel_send, gets, new_events.
    rewrite decide_True by exact Hin. rewrite Hsend.
    cbn [send_error settings log next_question]. rewrite Hflag.
    split; [reflexivity|]. split; reflexivity.
Qed.

Lemma upload_missing_file_or_keep_witness :
  let w := fresh (at_time 10 5 0) [mk_guild [cats]] in
  upload_photo cats "snap_2024-01-01_10-05-00.jpg" w = (Raise FileNotFoundError, w) /\
  exists w',
    upload_photo cats "a.jpg" (with_disk {["a.jpg"]} w) = (Ok tt, w') /\
    disk w' = {["a.jpg"]} /\
    events w' = [Sent cats "a.jpg"].
Proof.
  intros w. split.
  - apply (proj1 (upload_missing_file_or_keep w cats "snap_2024-01-01_10-05-00.jpg")).
    vm_compute. discriminate.
  - destruct (proj2 (upload_missing_file_or_keep (with_disk {["a.jpg"]} w) cats "a.jpg"))
      as (w' & Hrun & Hdisk & Hev).
    + vm_compute. reflexivity.
    + reflexivity.
    + reflexivity.
    + exists w'. auto.
Defined.

(** ** [snap] *)

(** X19: [snap] refuses without touching anything.  With no channel set
    (the name is missing, None or empty) it replies that no channel is set
    and the world is unchanged; with a channel set but called from a
    private message, where there is no guild, it raises [AttributeError]
    before any photo is taken. *)
Theorem snap_refusals (w : World) (ctx_guild : option guild) :
  (truthy (dict_get (settings w) "channel_name") = false ->
   snap ctx_guild w = (Ok (Some "No channel set. Use $setchannel first."), w)) /\
  (truthy (dict_get (settings w) "channel_name") = true ->
   snap None w = (Raise AttributeError, w)).
Proof.
  split; intros Hset; unfold snap, bind, gets; rewrite Hset; reflexivity.
Qed.

Lemma snap_refusals_witness :
  let w := startup (fresh (at_time 10 5 0) [mk_guild [cats]]) in
  snap (Some (mk_guild [cats])) w =
    (Ok (Some "No channel set. Use $setchannel first."), w) /\
  snap None (run_commands [Setchannel "cats"] w) =
    (Raise AttributeError, run_commands [Setchannel "cats"] w).
Proof.
  intros w. split.
  - apply (proj1 (snap_refusals w (Some (mk_guild [cats])))). vm_compute. reflexivity.
  - apply (proj2 (snap_refusals (run_commands [Setchannel "cats"] w) None)).
    vm_compute. reflexivity.
Defined.

(** A photo taken and sent, with a camera and a transport that work. *)
Lemma capture_and_upload_works (prefix : string) (ch : channel) (w : World) :
  camera w (S (asked w)) = 0 ->
  transport w (S (S (asked w))) = Delivered ->
  let f := prefix +:+ "_" +:+ strftime (clock w (asked w)) +:+ ".jpg" in
  exists w' new,
    (let! filename := take_photo prefix in upload_photo ch filename) w = (Ok tt, w') /\
    new_events w w' new /\ captures new = 1%nat /\ deliveries new = 1%nat /\
    In (Sent ch f) new.
Proof.
  intros Hcam Hsend f.
  unfold new_events, take_photo, upload_photo, bind, datetime_now,
    libcamera_still, open_rb, channel_send, gets, os_remove, raise, ret.
  cbn [camera asked next_question with_disk log disk events settings transport].
  rewrite Hcam. cbn [Z.eqb negb]. fold f.
  assert (f ∈ ({[f]} ∪ disk w : gset string)) as Hin
    by (apply elem_of_union; left; apply elem_of_singleton; reflexivity).
  rewrite decide_True by exact Hin.
  cbn [camera asked next_question with_disk log disk events settings transport].
  rewrite Hsend. cbn [send_error].
  cbn [camera asked next_question with_disk log disk events settings transport].
  destruct (truthy _).
  - cbn [camera asked next_question with_disk log disk events settings transport].
    rewrite decide_True by exact Hin.
    eexists. exists [Captured f 0; Sent ch f; Removed f].
    split; [reflexivity|]. cbn. rewrite <- !app_assoc. repeat split. auto.
  - eexists. exists [Captured f 0; Sent ch f].
    split; [reflexivity|]. cbn. rewrite <- !app_assoc. repeat split. auto.
Qed.

(** X20: [snap] in a guild that has the channel, with a camera and a
    transport that work, takes exactly one photo and sends it to that
    guild's channel, at any time of day and whatever the windows and the
    normal interval hold (they are not read), and replies nothing. *)
Theorem snap_takes_one_photo (w : World) (g : guild) (ch : channel) :
  channel_set w ->
  utils_get (text_channels g) (dict_get (settings w) "channel_name") = Some ch ->
  camera w (S (asked w)) = 0 ->
  transport w (S (S (asked w))) = Delivered ->
  exists w' new,
    snap (Some g) w = (Ok None, w') /\
    new_events w w' new /\
    captures new = 1%nat /\ deliveries new = 1%nat /\
    In (Sent ch ("snap_" +:+ strftime (clock w (asked w)) +:+ ".jpg")) new.
Proof.
  intros Hset Hch Hcam Hsend.
  destruct (capture_and_upload_works "snap" ch w Hcam Hsend)
    as (w' & new & Hrun & Hev & Hc & Hd & Hin).
  exists w', new. split; [|auto].
  unfold snap. unfold bind at 1. unfold gets. unfold channel_set in Hset.
  rewrite Hset. cbn [negb]. rewrite Hch. cbn [upload_photo_to].
  unfold bind at 1. unfold bind at 1. unfold bind in Hrun.
  destruct (take_photo "snap" w) as [[f|e] w1]; [|discriminate Hrun].
  rewrite Hrun. reflexivity.
Qed.

(** [$snap] at 03:17:42 in a session whose stored window would make a tick
    raise. *)
Lemma snap_takes_one_photo_witness :
  let w := session [Setchannel "cats"; Addwindow "4pm" "17:00" 0]
                   (at_time 3 17 42) [mk_guild [cats]] in
  exists w' new,
    snap (Some (mk_guild [dogs; cats])) w = (Ok None, w') /\
    new_events w w' new /\
    captures new = 1%nat /\ deliveries new = 1%nat /\
    In (Sent cats "snap_2024-01-01_03-17-42.jpg") new.
Proof.
  intros w.
  apply (snap_takes_one_photo w (mk_guild [dogs; cats]) cats).
  - vm_compute. reflexivity.
  - vm_compute. reflexivity.
  - reflexivity.
  - reflexivity.
Defined.

(** X21: [snap] in a guild that has no channel of the configured name
    takes the photo all the same and then fails: with a camera that works
    it raises [AttributeError], nothing is sent, and the photo is left on
    disk, whatever [delete_after_upload] says. *)
Theorem snap_without_channel_leaves_photo (w : World) (g : guild) :
  channel_set w ->
  utils_get (text_channels g) (dict_get (settings w) "channel_name") = None ->
  camera w (S (asked w)) = 0 ->
  let filename := "snap_" +:+ strftime (clock w (asked w)) +:+ ".jpg" in
  exists w',
    snap (Some g) w = (Raise AttributeError, w') /\
    filename ∈ disk w' /\
    new_events w w' [Captured filename 0].
Proof.
  intros Hset Hch Hcam filename.
  unfold snap. unfold bind at 1. unfold gets. unfold channel_set in Hset.
  rewrite Hset. cbn [negb]. rewrite Hch. cbn [upload_photo_to].
  unfold new_events, take_photo, bind, datetime_now, libcamera_still, open_rb, raise, ret.
  cbn [camera asked next_question with_disk log disk events settings transport].
  rewrite Hcam. cbn [Z.eqb negb].
  change ("snap" +:+ "_" +:+ strftime (clock w (asked w)) +:+ ".jpg") with filename.
  assert (filename ∈ ({[filename]} ∪ disk w : gset string)) as Hin
    by (apply elem_of_union; left; apply elem_of_singleton; reflexivity).
  rewrite decide_True by exact Hin.
  eexists. split; [reflexivity|].
  cbn [disk events log with_disk next_question]. split; [exact Hin | reflexivity].
Qed.

Lemma snap_without_channel_leaves_photo_witness :
  let w := session [Setchannel "cats"; Autodelete "yes"]
                   (at_time 3 17 42) [mk_guild [cats]] in
  exists w',
    snap (Some (mk_guild [dogs])) w = (Raise AttributeError, w') /\
    "snap_2024-01-01_03-17-42.jpg" ∈ disk w' /\
    new_events w w' [Captured "snap_2024-01-01_03-17-42.jpg" 0].
Proof.
  intros w.
  apply (snap_without_channel_leaves_photo w (mk_guild [dogs])).
  - vm_compute. reflexivity.
  - vm_compute. reflexivity.
  - reflexivity.
Defined.

(** ** Bounds written as HH:MM *)

Lemma forallb_seq (f : nat -> bool) (n k : nat) :
  forallb f (seq 0 n) = true -> (k < n)%nat -> f k = true.
Proof.
  intros Hall Hk. rewrite forallb_forall in Hall. apply Hall.
  apply in_seq. lia.
Qed.

Lemma strptime_hhmm_nat (h m : nat) :
  (h < 24)%nat -> (m < 60)%nat ->
  strptime_HM (hhmm (Z.of_nat h) (Z.of_nat m)) =
  Some (mk_time (Z.of_nat h) (Z.of_nat m) 0 0).
Proof.
  intros Hh Hm.
  pose (ok := fun h m : nat =>
    match strptime_HM (hhmm (Z.of_nat h) (Z.of_nat m)) with
    | Some t =>
      (hour t =? Z.of_nat h) && (minute t =? Z.of_nat m) &&
      (second t =? 0) && (microsecond t =? 0)
    | None => false
    end).
  assert (forallb (fun h => forallb (ok h) (seq 0 60)) (seq 0 24) = true) as Hall
    by (vm_compute; reflexivity).
  pose proof (forallb_seq _ 24 h Hall Hh) as Hrow. cbn beta in Hrow.
  pose proof (forallb_seq _ 60 m Hrow Hm) as Hcell.
  unfold ok in Hcell.
  destruct (strptime_HM _) as [[th tm ts tu]|]; [|discriminate Hcell].
  cbn [hour minute second microsecond] in Hcell.
  apply andb_true_iff in Hcell as [Hcell Hu].
  apply andb_true_iff in Hcell as [Hcell Hs].
  apply andb_true_iff in Hcell as [Hth Htm].
  apply Z.eqb_eq in Hth, Htm, Hs, Hu. subst. reflexivity.
Qed.

(** X22: every minute of the day written as HH:MM, two digits each, is a
    bound the tick accepts, and it is read back as that minute: for
    0 <= h <= 23 and 0 <= m <= 59 the parse of HH:MM is the time h:m:00,
    so a window added with two such bounds has bounds the loop over the
    windows can check, and contains exactly the times from its start to its
    end, both included. *)
Theorem hhmm_bounds_are_accepted (h1 m1 h2 m2 i : Z) (t : time) :
  0 <= h1 <= 23 -> 0 <= m1 <= 59 ->
  0 <= h2 <= 23 -> 0 <= m2 <= 59 ->
  let x := mk_window (hhmm h1 m1) (hhmm h2 m2) i in
  bounds x = Some (mk_time h1 m1 0 0, mk_time h2 m2 0 0) /\
  (contains x t <-> between (mk_time h1 m1 0 0) t (mk_time h2 m2 0 0) = true).
Proof.
  intros Hh1 Hm1 Hh2 Hm2 x.
  assert (forall h m, 0 <= h <= 23 -> 0 <= m <= 59 ->
            strptime_HM (hhmm h m) = Some (mk_time h m 0 0)) as Hparse.
  { intros h m Hh Hm.
    rewrite <- (Z2Nat.id h), <- (Z2Nat.id m) by lia.
    apply strptime_hhmm_nat; lia. }
  assert (bounds x = Some (mk_time h1 m1 0 0, mk_time h2 m2 0 0)) as Hb.
  { unfold bounds, x. cbn [start end_]. rewrite !Hparse by assumption. reflexivity. }
  split; [exact Hb|]. split.
  - intros (s & e & Hb' & Hin). rewrite Hb in Hb'. inversion Hb'; subst. exact Hin.
  - intros Hin. exists (mk_time h1 m1 0 0), (mk_time h2 m2 0 0). auto.
Qed.

Lemma hhmm_bounds_are_accepted_witness :
  bounds (mk_window "07:05" "23:59" 15) =
    Some (mk_time 7 5 0 0, mk_time 23 59 0 0).
Proof.
  apply (hhmm_bounds_are_accepted 7 5 23 59 15 (mk_time 0 0 0 0)); lia.
Defined.
